(** * jwt-pizza-service: the metrics aggregator of [src/metrics.js]

    A shallow embedding of the [Metrics] class: the in-memory counters,
    the latency windows, the active-user registry, the periodic report
    ([sendMetrics], [sendToGrafana]) and the OpenTelemetry encoder
    ([buildOtelMetrics], [getMetricUnit]).

    Conventions of the embedding.
    - A JavaScript number is an IEEE 754 binary64 value.  Fractional
      quantities (revenue, CPU and memory percentages, every value of a
      snapshot) are primitive floats, which are binary64.  Event counters,
      millisecond clock readings and latencies are integers in the source;
      they are carried as [Z] and turned into a double by [Z2F] where the
      source hands them to the snapshot.  [Z] agrees with binary64
      arithmetic as long as the magnitudes stay below 2^53.
    - [this.httpRequestCounts] is read and written through a computed key
      ([req.method]); it is a finite map from property names to counts.
      The map holds the object's own properties.
    - [this.activeUsers] is a [Map] from user id to the last activity time.
    - Mutation of [this] is explicit state passing over [Metrics]; an
      [async] method is cut at its [await], where other calls may run.
    - What the environment decides (clock readings, the host's answers,
      the collector's answer) is an argument of the operation that asks. *)

From Stdlib Require Import ZArith QArith Qround Qabs Lqa Floats Lia List Bool.
From stdpp Require Import gmap strings list fin_maps.

Set Default Proof Using "Type".
(* Decimal literals such as 9.99 denote the nearest double, as in the source. *)
#[local] Set Warnings "-inexact-float".
Local Open Scope string_scope.
Local Open Scope list_scope.
Local Open Scope Z_scope.

(** ** Numbers *)

(** The double nearest to an integer ([Number] of an integer-valued
    counter).  Exact for magnitudes below 2^53. *)
Definition Z2F (z : Z) : float :=
  if z <? 0
  then PrimFloat.opp (PrimFloat.of_uint63 (Uint63.of_Z (- z)))
  else PrimFloat.of_uint63 (Uint63.of_Z z).

(** [Math.round x]: the integer nearest to [x], a tie going to the larger
    one ([floor (x + 1/2)]).  The argument is the exact quotient of two
    integers; the double the source divides to rounds to the same integer
    as long as the dividend stays below 2^52. *)
Definition Math_round (x : Q) : Z := Qfloor (x + (1 # 2))%Q.

(** [Math.min a b] (ECMAScript 21.3.2.25 for two arguments): [NaN] when an
    argument is [NaN]; otherwise the running minimum starts at [+Infinity]
    and each argument replaces it when it is [-0] against [+0] or when it
    compares smaller. *)
Definition is_neg_zero (x : float) : bool :=
  PrimFloat.is_zero x && PrimFloat.get_sign x.

Definition is_pos_zero (x : float) : bool :=
  PrimFloat.is_zero x && negb (PrimFloat.get_sign x).

Definition min_step (lowest number : float) : float :=
  if is_neg_zero number && is_pos_zero lowest then PrimFloat.neg_zero
  else if PrimFloat.ltb number lowest then number
  else lowest.

Definition Math_min (a b : float) : float :=
  if PrimFloat.is_nan a || PrimFloat.is_nan b then PrimFloat.nan
  else min_step (min_step PrimFloat.infinity a) b.

(** ** The aggregator state *)

Record AuthAttempts := mkAuth { successful : Z; failed : Z }.

Record PizzaMetrics := mkPizza { sold : Z; failures : Z; revenue : float }.

Record LatencyMetrics := mkLatency {
  serviceLatencies : list Z;
  pizzaLatencies : list Z
}.

Record Metrics := mkMetrics {
  httpRequestCounts : gmap string Z;
  authAttempts : AuthAttempts;
  activeUsers : gmap Z Z;
  pizzaMetrics : PizzaMetrics;
  latencyMetrics : LatencyMetrics
}.

(** The object literal of the constructor and of [resetPeriodMetrics]. *)
Definition zero_counts : gmap string Z :=
  <["total" := 0]> (<["GET" := 0]> (<["POST" := 0]> (<["PUT" := 0]>
    (<["DELETE" := 0]> ∅)))).

(** [constructor()] (the timer it starts is the caller of [sendMetrics]). *)
Definition fresh : Metrics :=
  {| httpRequestCounts := zero_counts;
     authAttempts := mkAuth 0 0;
     activeUsers := ∅;
     pizzaMetrics := mkPizza 0 0 0%float;
     latencyMetrics := mkLatency [] [] |}.

(** [counts[k] || 0]: the count stored under [k], 0 when there is none. *)
Definition count_of (k : string) (counts : gmap string Z) : Z :=
  default 0 (counts !! k).

(** A user id is a number; [if (userId)] holds for a present, non-zero id. *)
Definition truthy (userId : option Z) : option Z :=
  match userId with
  | Some id => if id =? 0 then None else Some id
  | None => None
  end.

(** [arr.push(x); if (arr.length > 100) arr.shift()]: lines 52-57 and
    99-104 of the source. *)
Definition push_shift (arr : list Z) (x : Z) : list Z :=
  let arr' := arr ++ [x] in
  if 100 <? Z.of_nat (length arr') then tail arr' else arr'.

(** ** Recording operations *)

(** [requestTracker], the part that runs when the request arrives.
    [user] is [req.user.id] when [req.user] is set; [now] is the reading of
    [Date.now()] at line 46. *)
Definition requestTracker (method : string) (user : option Z) (now : Z)
    (m : Metrics) : Metrics :=
  let counts1 :=
    <["total" := count_of "total" (httpRequestCounts m) + 1]>
      (httpRequestCounts m) in
  let counts2 := <[method := count_of method counts1 + 1]> counts1 in
  let users :=
    match truthy user with
    | Some id => <[id := now]> (activeUsers m)
    | None => activeUsers m
    end in
  {| httpRequestCounts := counts2;
     authAttempts := authAttempts m;
     activeUsers := users;
     pizzaMetrics := pizzaMetrics m;
     latencyMetrics := latencyMetrics m |}.

(** The ['finish'] callback registered by [requestTracker]: [startTime] is
    the reading taken when the request arrived, [now] the one at finish. *)
Definition requestFinished (startTime now : Z) (m : Metrics) : Metrics :=
  let latency := now - startTime in
  {| httpRequestCounts := httpRequestCounts m;
     authAttempts := authAttempts m;
     activeUsers := activeUsers m;
     pizzaMetrics := pizzaMetrics m;
     latencyMetrics :=
       mkLatency (push_shift (serviceLatencies (latencyMetrics m)) latency)
                 (pizzaLatencies (latencyMetrics m)) |}.

Definition recordAuthAttempt (success : bool) (userId : option Z) (now : Z)
    (m : Metrics) : Metrics :=
  if success then
    {| httpRequestCounts := httpRequestCounts m;
       authAttempts :=
         mkAuth (successful (authAttempts m) + 1) (failed (authAttempts m));
       activeUsers :=
         match truthy userId with
         | Some id => <[id := now]> (activeUsers m)
         | None => activeUsers m
         end;
       pizzaMetrics := pizzaMetrics m;
       latencyMetrics := latencyMetrics m |}
  else
    {| httpRequestCounts := httpRequestCounts m;
       authAttempts :=
         mkAuth (successful (authAttempts m)) (failed (authAttempts m) + 1);
       activeUsers := activeUsers m;
       pizzaMetrics := pizzaMetrics m;
       latencyMetrics := latencyMetrics m |}.

Definition set_activeUsers (users : gmap Z Z) (m : Metrics) : Metrics :=
  {| httpRequestCounts := httpRequestCounts m;
     authAttempts := authAttempts m;
     activeUsers := users;
     pizzaMetrics := pizzaMetrics m;
     latencyMetrics := latencyMetrics m |}.

Definition updateUserActivity (userId : option Z) (now : Z) (m : Metrics)
    : Metrics :=
  match truthy userId with
  | Some id => set_activeUsers (<[id := now]> (activeUsers m)) m
  | None => m
  end.

Definition removeActiveUser (userId : option Z) (m : Metrics) : Metrics :=
  match truthy userId with
  | Some id => set_activeUsers (delete id (activeUsers m)) m
  | None => m
  end.

Definition pizzaPurchase (success : bool) (latency : Z) (rev : float)
    (m : Metrics) : Metrics :=
  let pm := pizzaMetrics m in
  let pm' :=
    if success
    then mkPizza (sold pm + 1) (failures pm) (PrimFloat.add (revenue pm) rev)
    else mkPizza (sold pm) (failures pm + 1) (revenue pm) in
  {| httpRequestCounts := httpRequestCounts m;
     authAttempts := authAttempts m;
     activeUsers := activeUsers m;
     pizzaMetrics := pm';
     latencyMetrics :=
       mkLatency (serviceLatencies (latencyMetrics m))
                 (push_shift (pizzaLatencies (latencyMetrics m)) latency) |}.

(** ** Derived values *)

Definition sum_latencies (latencies : list Z) : Z :=
  fold_left Z.add latencies 0.

Definition getAverageLatency (latencies : list Z) : Z :=
  if decide (length latencies = 0%nat) then 0
  else
    let sum := sum_latencies latencies in
    Math_round (inject_Z sum / inject_Z (Z.of_nat (length latencies)))%Q.

(** [arr.slice(-50)]: the last 50 elements, all of them when there are
    fewer. *)
Definition slice_last_50 (arr : list Z) : list Z :=
  drop (length arr - 50)%nat arr.

Definition trim_latencies (arr : list Z) : list Z :=
  if 50 <? Z.of_nat (length arr) then slice_last_50 arr else arr.

Definition resetPeriodMetrics (m : Metrics) : Metrics :=
  {| httpRequestCounts := zero_counts;
     authAttempts := mkAuth 0 0;
     activeUsers := activeUsers m;
     pizzaMetrics := mkPizza 0 0 0%float;
     latencyMetrics :=
       mkLatency (trim_latencies (serviceLatencies (latencyMetrics m)))
                 (trim_latencies (pizzaLatencies (latencyMetrics m))) |}.

(** ** The host and the configuration *)

(** What [os] answers at snapshot time: [os.loadavg()[0]],
    [os.cpus().length], [os.totalmem()] and [os.freemem()]. *)
Record Host := mkHost {
  loadavg1 : float;
  cpus_length : Z;
  totalmem : float;
  freemem : float
}.

(** [config.metrics] of [./config], which is not part of the sources at
    hand: its three fields are taken as given. *)
Record Config := mkConfig {
  source : string;
  url : string;
  apiKey : string
}.

Definition getCpuUsagePercentage (h : Host) : float :=
  let cpuUsage := PrimFloat.div (loadavg1 h) (Z2F (cpus_length h)) in
  Math_min (PrimFloat.mul cpuUsage 100) 100.

(** ** Snapshots and the OpenTelemetry payload *)

(** A property value of the snapshot object: a string ([source]) or a
    number (everything else). *)
Inductive value :=
  | VString (s : string)
  | VNumber (x : float).

(** The snapshot object, as [Object.entries] enumerates it: its properties
    in insertion order. *)
Definition snapshot := list (string * value).

(** [o[k]]: the value of the property named [k], if the object has it. *)
Definition get_property (k : string) (o : snapshot) : option value :=
  snd <$> List.find (λ e : string * value, bool_decide (e.1 = k)) o.

(** [metrics.source], a string in every snapshot [sendMetrics] builds. *)
Definition get_source (metrics : snapshot) : string :=
  match get_property "source" metrics with
  | Some (VString s) => s
  | _ => ""
  end.

Record Attribute := mkAttribute { key : string; stringValue : string }.

Record DataPoint := mkDataPoint {
  attributes : list Attribute;
  asDouble : float;
  timeUnixNano : float
}.

Record Metric := mkMetric {
  name : string;
  description : string;
  unit : string;
  gauge_dataPoints : list DataPoint
}.

Record Scope := mkScope { scope_name : string; scope_version : string }.

Record ScopeMetrics := mkScopeMetrics {
  scope : Scope;
  metrics : list Metric
}.

Record ResourceMetrics := mkResourceMetrics {
  resource_attributes : list Attribute;
  scopeMetrics : list ScopeMetrics
}.

Record OtelPayload := mkPayload { resourceMetrics : list ResourceMetrics }.

(** [s.includes(needle)]. *)
Fixpoint includes (needle s : string) : bool :=
  String.prefix needle s ||
  match s with
  | EmptyString => false
  | String _ s' => includes needle s'
  end.

Definition getMetricUnit (metricName : string) : string :=
  if includes "percent" metricName then "%"
  else if includes "latency" metricName then "ms"
  else if includes "revenue" metricName then "USD"
  else if includes "requests" metricName || includes "attempts" metricName
          || includes "users" metricName || includes "pizzas" metricName
       then "1"
  else "1".

(** [typeof value === 'number']. *)
Definition typeof_number (v : value) : bool :=
  match v with VNumber _ => true | VString _ => false end.

(** The number held by a property that passed [typeof_number]. *)
Definition number_of (v : value) : float :=
  match v with VNumber x => x | VString _ => PrimFloat.nan end.

(** The test of lines 237 and 253:
    [key !== 'source' && key !== 'timestamp' && typeof value === 'number']. *)
Definition is_metric_entry (e : string * value) : bool :=
  bool_decide (e.1 ≠ "source") && bool_decide (e.1 ≠ "timestamp")
  && typeof_number e.2.

(** [buildOtelMetrics(metrics)]; [clock] is the reading of [Date.now()] at
    line 219. *)
Definition buildOtelMetrics (clock : Z) (metrics : snapshot) : OtelPayload :=
  let timestamp := PrimFloat.mul (Z2F clock) 1000000 in
  let resource :=
    [ mkAttribute "service.name" (get_source metrics);
      mkAttribute "service.version" "1.0.0" ] in
  let point (v : value) :=
    mkDataPoint [mkAttribute "source" (get_source metrics)]
                (number_of v) timestamp in
  (* filled by the [forEach] of lines 236-249 and not used afterwards *)
  let dataPoints :=
    List.map (λ e : string * value, point e.2)
             (List.filter is_metric_entry metrics) in
  let metricsList :=
    List.map
      (λ e : string * value,
         mkMetric e.1
           (String.append e.1 " metric from JWT Pizza Service")
           (getMetricUnit e.1)
           [point e.2])
      (List.filter is_metric_entry metrics) in
  mkPayload
    [ mkResourceMetrics resource
        [ mkScopeMetrics (mkScope "jwt-pizza-service-metrics" "1.0.0")
                         metricsList ] ].

(** ** The reporting cycle *)

(** Lines 134-140: every entry of [this.activeUsers] is visited once and
    deleted from the map when its time is before [fiveMinutesAgo].  A [Map]
    visits its entries in insertion order and the fold in key order; the
    deletions commute, so the map that remains is the same.  (The console
    line written for each deleted user is not modelled.) *)
Definition expire_inactive (fiveMinutesAgo : Z) (users : gmap Z Z)
    : gmap Z Z :=
  map_fold
    (λ userId lastActivityTime (acc : gmap Z Z),
       if bool_decide (lastActivityTime < fiveMinutesAgo)
       then delete userId acc else acc)
    users users.

(** What the console shows of a delivery. *)
Inductive console_line :=
  | MetricsCollected (metrics : snapshot)
  | FailedToSendMetrics (status : Z) (statusText errorText : string)
  | MetricsSuccessfullySent
  | ErrorSendingToGrafana (message : string)
  | ErrorSendingMetrics (message : string).

(** The answer of the collector, chosen by the environment: the promise of
    [fetch] resolves with a response or rejects (a transport error, or the
    import of [node-fetch] failing); [response.text()] resolves with the
    body or rejects. *)
Record Response := mkResponse {
  status : Z;
  statusText : string;
  text : string + string
}.

Inductive fetch_outcome :=
  | Resolved (response : Response)
  | Rejected (message : string).

(** [response.ok]: the status is in the range 200-299. *)
Definition ok (response : Response) : bool :=
  (200 <=? status response) && (status response <=? 299).

Record Request := mkRequest {
  request_url : string;
  request_method : string;
  content_type : string;
  authorization : string;
  body : OtelPayload
}.

(** A computation that writes console lines and then returns a value or
    throws ([inr message]). *)
Definition Exc (A : Type) : Type := list console_line * (A + string).

Definition ret {A} (a : A) : Exc A := ([], inl a).

Definition throw {A} (message : string) : Exc A := ([], inr message).

Definition bind {A B} (c : Exc A) (f : A → Exc B) : Exc B :=
  match c with
  | (out, inl a) => let '(out', r) := f a in (out ++ out', r)
  | (out, inr message) => (out, inr message)
  end.

Definition console (line : console_line) : Exc () := ([line], inl tt).

(** [try { c } catch (error) { handler(error.message) }]. *)
Definition try_catch {A} (c : Exc A) (handler : string → Exc A) : Exc A :=
  match c with
  | (out, inl a) => (out, inl a)
  | (out, inr message) => let '(out', r) := handler message in (out ++ out', r)
  end.

(** [await p] for a promise already settled by the environment. *)
Definition await {A} (p : A + string) : Exc A := ([], p).

Notation "'let!' x ':=' c1 'in' c2" := (bind c1 (λ x, c2))
  (at level 10, x name, c1 at level 100, c2 at level 200).
Notation "'do!' c1 'in' c2" := (bind c1 (λ _, c2))
  (at level 10, c1 at level 100, c2 at level 200).

Section Report.

Variable config : Config.

(** [parseFloat(x.toFixed(2))]: rounding to two decimals through the
    decimal text of the number, taken as given. *)
Variable toFixed2 : float → float.

Definition getMemoryUsagePercentage (h : Host) : float :=
  let usedMemory := PrimFloat.sub (totalmem h) (freemem h) in
  let memoryUsage := PrimFloat.mul (PrimFloat.div usedMemory (totalmem h)) 100 in
  toFixed2 memoryUsage.

(** The object literal of lines 142-172, read off the state [m] after the
    expiry pass. *)
Definition metrics_object (now : Z) (h : Host) (m : Metrics) : snapshot :=
  [ ("source", VString (source config));
    ("timestamp", VNumber (Z2F now));
    ("http_requests_total",
       VNumber (Z2F (count_of "total" (httpRequestCounts m))));
    ("http_requests_get",
       VNumber (Z2F (count_of "GET" (httpRequestCounts m))));
    ("http_requests_post",
       VNumber (Z2F (count_of "POST" (httpRequestCounts m))));
    ("http_requests_put",
       VNumber (Z2F (count_of "PUT" (httpRequestCounts m))));
    ("http_requests_delete",
       VNumber (Z2F (count_of "DELETE" (httpRequestCounts m))));
    ("auth_attempts_successful",
       VNumber (Z2F (successful (authAttempts m))));
    ("auth_attempts_failed", VNumber (Z2F (failed (authAttempts m))));
    ("active_users", VNumber (Z2F (Z.of_nat (size (activeUsers m)))));
    ("cpu_percent", VNumber (getCpuUsagePercentage h));
    ("memory_percent", VNumber (getMemoryUsagePercentage h));
    ("pizzas_sold", VNumber (Z2F (sold (pizzaMetrics m))));
    ("pizza_failures", VNumber (Z2F (failures (pizzaMetrics m))));
    ("pizza_revenue", VNumber (revenue (pizzaMetrics m)));
    ("service_latency_avg",
       VNumber (Z2F (getAverageLatency
                       (serviceLatencies (latencyMetrics m)))));
    ("pizza_latency_avg",
       VNumber (Z2F (getAverageLatency
                       (pizzaLatencies (latencyMetrics m))))) ].

(** The request handed to [fetch] at lines 197-204. *)
Definition request_of (otlpPayload : OtelPayload) : Request :=
  {| request_url := url config;
     request_method := "POST";
     content_type := "application/json";
     authorization := String.append "Bearer " (apiKey config);
     body := otlpPayload |}.

(** [sendToGrafana(metrics)]: [clock] is the reading of [Date.now()] in
    the encoder, [fetched] what [fetch] answers to the request. *)
Definition sendToGrafana (clock : Z) (fetched : Request → fetch_outcome)
    (metrics : snapshot) : Exc () :=
  try_catch
    (do! console (MetricsCollected metrics) in
     let otlpPayload := buildOtelMetrics clock metrics in
     let! response := await (match fetched (request_of otlpPayload) with
                             | Resolved r => inl r
                             | Rejected message => inr message
                             end) in
     if negb (ok response) then
       let! errorText := await (text response) in
       console (FailedToSendMetrics (status response) (statusText response)
                                    errorText)
     else
       console MetricsSuccessfullySent)
    (λ message, console (ErrorSendingToGrafana message)).

(** [sendMetrics()] up to its [await]: [now] is the reading of
    [Date.now()] at line 131.  The expiry pass and the snapshot run in one
    go and none of their statements throws; the function then waits for
    [sendToGrafana], and other calls may run on the aggregator meanwhile. *)
Definition sendMetrics_suspended (now : Z) (h : Host) (m : Metrics)
    : Metrics * snapshot :=
  let fiveMinutesAgo := now - 5 * 60 * 1000 in
  let m1 :=
    set_activeUsers (expire_inactive fiveMinutesAgo (activeUsers m)) m in
  (m1, metrics_object now h m1).

(** [sendMetrics()] from its [await] on: [delivery] is how [sendToGrafana]
    completed, [m] the aggregator at that moment. *)
Definition sendMetrics_resumed (delivery : Exc ()) (m : Metrics)
    : Metrics * list console_line :=
  match delivery with
  | (out, inl _) => (resetPeriodMetrics m, out)
  | (out, inr error) => (m, out ++ [ErrorSendingMetrics error])
  end.

(** A whole cycle with no other call during the delivery. *)
Definition sendMetrics (now clock : Z) (h : Host)
    (fetched : Request → fetch_outcome) (m : Metrics)
    : Metrics * list console_line :=
  let '(m1, metrics) := sendMetrics_suspended now h m in
  sendMetrics_resumed (sendToGrafana clock fetched metrics) m1.

(** ** Histories of calls *)

(** The calls that reach the aggregator, a reporting cycle being two of
    them: its start and its resumption after the delivery. *)
Inductive call :=
  | CallRequestTracker (method : string) (user : option Z) (now : Z)
  | CallRequestFinished (startTime now : Z)
  | CallRecordAuthAttempt (success : bool) (userId : option Z) (now : Z)
  | CallUpdateUserActivity (userId : option Z) (now : Z)
  | CallRemoveActiveUser (userId : option Z)
  | CallPizzaPurchase (success : bool) (latency : Z) (rev : float)
  | CallSendMetrics (now : Z) (h : Host)
  | CallSendMetricsResumed (clock : Z) (fetched : Request → fetch_outcome)
                           (metrics : snapshot)
  | CallResetPeriodMetrics.

Definition step (m : Metrics) (c : call) : Metrics :=
  match c with
  | CallRequestTracker method user now => requestTracker method user now m
  | CallRequestFinished startTime now => requestFinished startTime now m
  | CallRecordAuthAttempt success userId now =>
      recordAuthAttempt success userId now m
  | CallUpdateUserActivity userId now => updateUserActivity userId now m
  | CallRemoveActiveUser userId => removeActiveUser userId m
  | CallPizzaPurchase success latency rev =>
      pizzaPurchase success latency rev m
  | CallSendMetrics now h => (sendMetrics_suspended now h m).1
  | CallSendMetricsResumed clock fetched metrics =>
      (sendMetrics_resumed (sendToGrafana clock fetched metrics) m).1
  | CallResetPeriodMetrics => resetPeriodMetrics m
  end.

Definition run (calls : list call) (m : Metrics) : Metrics :=
  fold_left step calls m.

End Report.

(** * The token check of the route tests

    [expectValidJwt] of [routes/orderRouter.test.js],
    [routes/authRouter.test.js] and [routes/franchiseRouter.test.js] expects
    its argument to match
    [/^[a-zA-Z0-9\-_]*\.[a-zA-Z0-9\-_]*\.[a-zA-Z0-9\-_]*$/].  The regular
    expression is embedded as a term and tested by derivatives; being
    anchored at both ends, it has to match the whole string. *)

Inductive regex :=
  | Empty
  | Eps
  | Lit (c : Ascii.ascii)
  | Class (p : Ascii.ascii → bool)
  | Alt (r1 r2 : regex)
  | Seq (r1 r2 : regex)
  | Star (r : regex).

Fixpoint nullable (r : regex) : bool :=
  match r with
  | Empty => false
  | Eps => true
  | Lit _ => false
  | Class _ => false
  | Alt r1 r2 => nullable r1 || nullable r2
  | Seq r1 r2 => nullable r1 && nullable r2
  | Star _ => true
  end.

Fixpoint deriv (a : Ascii.ascii) (r : regex) : regex :=
  match r with
  | Empty => Empty
  | Eps => Empty
  | Lit c => if Ascii.eqb a c then Eps else Empty
  | Class p => if p a then Eps else Empty
  | Alt r1 r2 => Alt (deriv a r1) (deriv a r2)
  | Seq r1 r2 =>
      if nullable r1
      then Alt (Seq (deriv a r1) r2) (deriv a r2)
      else Seq (deriv a r1) r2
  | Star r' => Seq (deriv a r') (Star r')
  end.

(** [/^r$/.test(s)] on the characters of [s]. *)
Fixpoint regex_test (r : regex) (s : list Ascii.ascii) : bool :=
  match s with
  | [] => nullable r
  | a :: s' => regex_test (deriv a r) s'
  end.

(** The character class [[a-zA-Z0-9\-_]]. *)
Definition jwt_char (c : Ascii.ascii) : bool :=
  let n := Ascii.N_of_ascii c in
  ((97 <=? n) && (n <=? 122) || (65 <=? n) && (n <=? 90)
   || (48 <=? n) && (n <=? 57) || (n =? 45) || (n =? 95))%N.

(** The character [.] (code 46). *)
Definition dot : Ascii.ascii := Ascii.ascii_of_nat 46.

Definition jwt_segment : regex := Star (Class jwt_char).

Definition jwt_regex : regex :=
  Seq jwt_segment
    (Seq (Lit dot) (Seq jwt_segment (Seq (Lit dot) jwt_segment))).

(** [expectValidJwt(potentialJwt)]: whether the expectation holds.  A value
    that is not a string ([None]: no token in the response) fails it. *)
Definition expectValidJwt (potentialJwt : option string) : bool :=
  match potentialJwt with
  | Some s => regex_test jwt_regex (String.list_ascii_of_string s)
  | None => false
  end.

(** The strings a regular expression denotes. *)
Inductive matches : regex → list Ascii.ascii → Prop :=
  | matches_eps : matches Eps []
  | matches_lit c : matches (Lit c) [c]
  | matches_class p c : p c = true → matches (Class p) [c]
  | matches_alt_l r1 r2 s : matches r1 s → matches (Alt r1 r2) s
  | matches_alt_r r1 r2 s : matches r2 s → matches (Alt r1 r2) s
  | matches_seq r1 r2 s1 s2 :
      matches r1 s1 → matches r2 s2 → matches (Seq r1 r2) (s1 ++ s2)
  | matches_star_nil r : matches (Star r) []
  | matches_star_app r s1 s2 :
      matches r s1 → matches (Star r) s2 → matches (Star r) (s1 ++ s2).

(** ** Predicates used in the statements *)

(** The two windows of a state hold at most 100 samples each. *)
Definition windows_bounded (m : Metrics) : Prop :=
  (length (serviceLatencies (latencyMetrics m)) <= 100)%nat ∧
  (length (pizzaLatencies (latencyMetrics m)) <= 100)%nat.

(** Property names that a fresh [httpRequestCounts] object already answers
    to with something that is not a per-method count: its own key [total],
    which counts every request, and the members it inherits from
    [Object.prototype], which the map of own properties does not hold (the
    source would read a function there and store a string).  No method
    name that Node's HTTP parser hands over in [req.method] is one of
    them: those are upper-case tokens. *)
Definition reserved_names : list string :=
  [ "total"; "constructor"; "__proto__"; "hasOwnProperty"; "isPrototypeOf";
    "propertyIsEnumerable"; "toLocaleString"; "toString"; "valueOf";
    "__defineGetter__"; "__defineSetter__"; "__lookupGetter__";
    "__lookupSetter__" ].

(** A request as [requestTracker] sees it: method, user id, clock. *)
Definition request : Type := string * option Z * Z.

Definition record_requests (calls : list request) (m : Metrics) : Metrics :=
  fold_left (λ m (c : request), requestTracker c.1.1 c.1.2 c.2 m) calls m.

(** The number of calls made with method [k]. *)
Definition calls_with (k : string) (calls : list request) : Z :=
  Z.of_nat (length (filter (λ c : request, c.1.1 = k) calls)).

(** The gauge metrics of a payload, over its resources and scopes. *)
Definition payload_metrics (p : OtelPayload) : list Metric :=
  concat (List.map metrics
            (concat (List.map scopeMetrics (resourceMetrics p)))).

(** The unit of a metric by the naming convention, in the words of the
    specification: a name containing [percent] has unit [%], one containing
    [latency] has [ms], one containing [revenue] has the currency unit,
    every other name is dimensionless. *)
Definition unit_by_convention (metricName : string) : string :=
  if includes "percent" metricName then "%"
  else if includes "latency" metricName then "ms"
  else if includes "revenue" metricName then "USD"
  else "1".

(** A payload with the time of every data point overwritten by [t]: what
    remains of a payload when its timestamps are set aside. *)
Definition restamp_point (t : float) (d : DataPoint) : DataPoint :=
  mkDataPoint (attributes d) (asDouble d) t.

Definition restamp_metric (t : float) (mt : Metric) : Metric :=
  mkMetric (name mt) (description mt) (unit mt)
           (List.map (restamp_point t) (gauge_dataPoints mt)).

Definition restamp (t : float) (p : OtelPayload) : OtelPayload :=
  mkPayload
    (List.map
       (λ rm,
          mkResourceMetrics (resource_attributes rm)
            (List.map
               (λ sm,
                  mkScopeMetrics (scope sm)
                    (List.map (restamp_metric t) (metrics sm)))
               (scopeMetrics rm)))
       (resourceMetrics p)).

(** The snapshot a cycle wrote to the console before sending it. *)
Definition reported (out : list console_line) : option snapshot :=
  match out with
  | MetricsCollected snap :: _ => Some snap
  | _ => None
  end.

(** ** Histories and periods *)

(** The calls that end a period: the resumption of a reporting cycle and a
    direct [resetPeriodMetrics]. *)
Definition is_reset (c : call) : bool :=
  match c with
  | CallSendMetricsResumed _ _ _ | CallResetPeriodMetrics => true
  | _ => false
  end.

(** The calls of a history that came after its last reset, in order. *)
Definition since_reset (calls : list call) : list call :=
  fold_left (λ period c, if is_reset c then [] else period ++ [c]) calls [].

Definition count_calls (p : call → bool) (calls : list call) : Z :=
  Z.of_nat (length (List.filter p calls)).

Definition is_auth (outcome : bool) (c : call) : bool :=
  match c with
  | CallRecordAuthAttempt success _ _ => Bool.eqb success outcome
  | _ => false
  end.

Definition is_purchase (outcome : bool) (c : call) : bool :=
  match c with
  | CallPizzaPurchase success _ _ => Bool.eqb success outcome
  | _ => false
  end.

(** The revenues of the successful purchases of a history, in order. *)
Definition revenues (calls : list call) : list float :=
  omap (λ c, match c with
             | CallPizzaPurchase true _ rev => Some rev
             | _ => None
             end) calls.

Definition is_request (c : call) : bool :=
  match c with CallRequestTracker _ _ _ => true | _ => false end.

Definition is_request_with (k : string) (c : call) : bool :=
  match c with
  | CallRequestTracker method _ _ => bool_decide (method = k)
  | _ => false
  end.

(** Every request of the history has a method name that is not reserved. *)
Definition plain_methods (calls : list call) : Prop :=
  Forall (λ c, match c with
               | CallRequestTracker method _ _ => method ∉ reserved_names
               | _ => True
               end) calls.

(** The latencies a history recorded for finished requests, in order. *)
Definition finished_latencies (calls : list call) : list Z :=
  omap (λ c, match c with
             | CallRequestFinished startTime now => Some (now - startTime)
             | _ => None
             end) calls.

(** The latencies a history recorded for pizza purchases, in order. *)
Definition purchase_latencies (calls : list call) : list Z :=
  omap (λ c, match c with
             | CallPizzaPurchase _ latency _ => Some latency
             | _ => None
             end) calls.

(** [window] holds the most recent samples of [recorded], in order, at least
    the last 50 of them (all of them when fewer were recorded) and at most
    the last 100. *)
Definition recent_window (window recorded : list Z) : Prop :=
  window = drop (length recorded - length window)%nat recorded ∧
  (Nat.min (length recorded) 50 <= length window)%nat ∧
  (length window <= Nat.min (length recorded) 100)%nat.

(** The methods whose counters the snapshot reads (lines 148-151). *)
Definition reported_methods : list string := [ "GET"; "POST"; "PUT"; "DELETE" ].

(** [needle] occurs in [s] as a run of consecutive characters. *)
Definition occurs_in (needle s : string) : Prop :=
  ∃ before after : string,
    s = String.append before (String.append needle after).

(** ** The methods the middleware receives *)

(** [req.method] is set by Node's HTTP parser, which accepts the methods of
    [http.METHODS] only and rejects a request line with any other.  Each of
    them is a non-empty run of upper-case letters and hyphens. *)
Definition method_char (c : Ascii.ascii) : bool :=
  let n := Ascii.N_of_ascii c in
  ((65 <=? n) && (n <=? 90) || (n =? 45))%N.

Definition is_http_method (method : string) : bool :=
  match String.list_ascii_of_string method with
  | [] => false
  | chars => forallb method_char chars
  end.

(** [http.METHODS] of Node 22. *)
Definition node_http_methods : list string :=
  [ "ACL"; "BIND"; "CHECKOUT"; "CONNECT"; "COPY"; "DELETE"; "GET"; "HEAD";
    "LINK"; "LOCK"; "M-SEARCH"; "MERGE"; "MKACTIVITY"; "MKCALENDAR"; "MKCOL";
    "MOVE"; "NOTIFY"; "OPTIONS"; "PATCH"; "POST"; "PROPFIND"; "PROPPATCH";
    "PURGE"; "PUT"; "QUERY"; "REBIND"; "REPORT"; "SEARCH"; "SOURCE";
    "SUBSCRIBE"; "TRACE"; "UNBIND"; "UNLINK"; "UNLOCK"; "UNSUBSCRIBE" ].

(** * Properties *)

(** ** Latency windows *)

Lemma push_shift_length (arr : list Z) (x : Z) :
  length (push_shift arr x) =
  if (100 <=? length arr)%nat then length arr else S (length arr).
Proof.
  unfold push_shift. rewrite length_app. simpl length.
  destruct (Z.ltb_spec 100 (Z.of_nat (length arr + 1))) as [Hgt | Hle];
    destruct (Nat.leb_spec 100 (length arr)) as [Hge | Hlt]; try lia.
  - destruct arr as [| y arr]; simpl in *; [lia |].
    rewrite length_app. simpl. lia.
  - rewrite length_app. simpl. lia.
Qed.

Lemma push_shift_drops_oldest (arr : list Z) (x : Z) :
  push_shift arr x =
  if (100 <=? length arr)%nat then tail arr ++ [x] else arr ++ [x].
Proof.
  unfold push_shift. rewrite length_app. simpl length.
  destruct (Z.ltb_spec 100 (Z.of_nat (length arr + 1)));
    destruct (Nat.leb_spec 100 (length arr)); try lia; [| done].
  destruct arr; simpl in *; [lia | done].
Qed.

Lemma push_shift_bounded (arr : list Z) (x : Z) :
  (length arr <= 100)%nat → (length (push_shift arr x) <= 100)%nat.
Proof.
  intros Hlen. rewrite push_shift_length.
  destruct (Nat.leb_spec 100 (length arr)); lia.
Qed.

Lemma tail_drop {A} (k : nat) (l : list A) : tail (drop k l) = drop (S k) l.
Proof.
  revert l. induction k as [| k IH]; intros [| a l]; simpl; done.
Qed.

(** Appending to an empty window keeps the most recent 100 samples. *)
Lemma fold_push_shift (xs : list Z) :
  fold_left push_shift xs [] = drop (length xs - 100)%nat xs.
Proof.
  induction xs as [| x xs IH] using rev_ind; [done |].
  rewrite fold_left_app. simpl. rewrite IH. clear IH.
  rewrite length_app. simpl length. unfold push_shift.
  rewrite length_app, length_drop. simpl length.
  destruct (Z.ltb_spec 100
              (Z.of_nat (length xs - (length xs - 100) + 1))) as [Hgt | Hle].
  - assert (100 <= length xs)%nat as Hge by lia.
    destruct (drop (length xs - 100) xs) as [| y ys] eqn:Hd.
    { apply (f_equal length) in Hd. rewrite length_drop in Hd.
      simpl in Hd. lia. }
    change (tail ((y :: ys) ++ [x])) with (tail (y :: ys) ++ [x]).
    rewrite <- Hd, tail_drop.
    replace (length xs + 1 - 100)%nat with (S (length xs - 100)) by lia.
    rewrite drop_app_le by lia. done.
  - replace (length xs - 100)%nat with 0%nat by lia.
    replace (length xs + 1 - 100)%nat with 0%nat by lia.
    by rewrite !drop_0.
Qed.

Lemma trim_latencies_spec (arr : list Z) :
  trim_latencies arr = drop (length arr - 50)%nat arr.
Proof.
  unfold trim_latencies, slice_last_50.
  destruct (Z.ltb_spec 50 (Z.of_nat (length arr))); [done |].
  replace (length arr - 50)%nat with 0%nat by lia. by rewrite drop_0.
Qed.

Lemma trim_latencies_length (arr : list Z) :
  length (trim_latencies arr) = Nat.min (length arr) 50.
Proof. rewrite trim_latencies_spec, length_drop. lia. Qed.

Section Invariants.

Variable config : Config.
Variable toFixed2 : float → float.

Lemma sendToGrafana_returns clock fetched metrics :
  (sendToGrafana config clock fetched metrics).2 = inl tt.
Proof.
  unfold sendToGrafana, try_catch, bind, console, await.
  destruct (fetched _) as [response | message]; simpl; [| done].
  destruct (negb (ok response)); simpl; [| done].
  by destruct (text response).
Qed.

Lemma sendMetrics_resumed_state clock fetched metrics m :
  (sendMetrics_resumed (sendToGrafana config clock fetched metrics) m).1 =
  resetPeriodMetrics m.
Proof.
  pose proof (sendToGrafana_returns clock fetched metrics) as Hret.
  unfold sendMetrics_resumed.
  destruct (sendToGrafana _ _ _ _) as [out [[] | error]]; simpl in *;
    [done | discriminate].
Qed.

Lemma sendMetrics_state now clock h fetched m :
  (sendMetrics config toFixed2 now clock h fetched m).1 =
  resetPeriodMetrics
    (set_activeUsers
       (expire_inactive (now - 5 * 60 * 1000) (activeUsers m)) m).
Proof. unfold sendMetrics. simpl. apply sendMetrics_resumed_state. Qed.

Lemma sendMetrics_resumed_console clock fetched snap m :
  (sendMetrics_resumed (sendToGrafana config clock fetched snap) m).2 =
  [ MetricsCollected snap;
    match fetched (request_of config (buildOtelMetrics clock snap)) with
    | Resolved response =>
        if ok response then MetricsSuccessfullySent
        else match text response with
             | inl errorText =>
                 FailedToSendMetrics (status response) (statusText response)
                                     errorText
             | inr message => ErrorSendingToGrafana message
             end
    | Rejected message => ErrorSendingToGrafana message
    end ].
Proof.
  unfold sendMetrics_resumed, sendToGrafana, try_catch, bind, console, await.
  destruct (fetched _) as [response | message]; simpl; [| done].
  destruct (ok response); simpl; [done |].
  by destruct (text response).
Qed.

Lemma step_windows_bounded m c :
  windows_bounded m → windows_bounded (step config toFixed2 m c).
Proof.
  intros [Hs Hp]. destruct c; simpl.
  - by split.
  - split; simpl; [by apply push_shift_bounded | done].
  - unfold recordAuthAttempt. destruct success; by split.
  - unfold updateUserActivity. destruct (truthy userId); by split.
  - unfold removeActiveUser. destruct (truthy userId); by split.
  - split; simpl; [done | by apply push_shift_bounded].
  - by split.
  - rewrite sendMetrics_resumed_state. split; simpl;
      rewrite trim_latencies_length; lia.
  - split; simpl; rewrite trim_latencies_length; lia.
Qed.

Lemma run_windows_bounded calls m :
  windows_bounded m → windows_bounded (run config toFixed2 calls m).
Proof.
  revert m. induction calls as [| c calls IH]; intros m Hm; [done |].
  simpl. apply IH. by apply step_windows_bounded.
Qed.

End Invariants.

(** C3: starting from the fresh aggregator, after any history of calls the
    service window and the pizza window hold at most 100 samples each; an
    append adds one sample and, once the window is full, drops the oldest
    one; a window filled from empty holds the most recent 100 of the samples
    appended, so 150 appends leave 100 entries. *)
Theorem latency_windows_hold_at_most_100 :
  ∀ (config : Config) (toFixed2 : float → float) (calls : list call),
    windows_bounded (run config toFixed2 calls fresh) ∧
    (∀ (arr : list Z) (x : Z),
       length (push_shift arr x) =
         (if (100 <=? length arr)%nat then length arr else S (length arr)) ∧
       push_shift arr x =
         (if (100 <=? length arr)%nat then tail arr ++ [x] else arr ++ [x])) ∧
    (∀ xs : list Z,
       fold_left push_shift xs [] = drop (length xs - 100)%nat xs ∧
       length (fold_left push_shift xs []) = Nat.min (length xs) 100) ∧
    (∀ xs : list Z,
       length (fold_left push_shift (xs ++ replicate 150 0) []) = 100%nat).
Proof.
  intros config toFixed2 calls. repeat split.
  - apply run_windows_bounded. split; simpl; lia.
  - apply run_windows_bounded. split; simpl; lia.
  - apply push_shift_length.
  - apply push_shift_drops_oldest.
  - apply fold_push_shift.
  - rewrite fold_push_shift, length_drop. lia.
  - intros xs.
    rewrite fold_push_shift, length_drop, length_app, length_replicate. lia.
Qed.

(** ** Average latency *)

Lemma Math_round_nearest (x : Q) :
  (x - (1 # 2) < inject_Z (Math_round x))%Q ∧
  (inject_Z (Math_round x) <= x + (1 # 2))%Q.
Proof.
  unfold Math_round.
  pose proof (Qfloor_le (x + (1 # 2))) as Hle.
  pose proof (Qlt_floor (x + (1 # 2))) as Hlt.
  rewrite inject_Z_plus in Hlt. change (inject_Z 1) with 1%Q in Hlt.
  split; lra.
Qed.

(** The [reduce] of line 124 adds the samples up. *)
Lemma sum_latencies_total (latencies : list Z) :
  sum_latencies latencies = foldr Z.add 0 latencies.
Proof.
  unfold sum_latencies.
  assert (∀ acc, fold_left Z.add latencies acc
                 = acc + foldr Z.add 0 latencies) as Hacc.
  { induction latencies as [| y latencies IH]; intros acc; simpl; [lia |].
    rewrite IH. lia. }
  by rewrite Hacc.
Qed.

(** C4: the average of an empty list of samples is 0; for a non-empty list
    [x1, ..., xn] it is the integer nearest to the arithmetic mean
    [(x1 + ... + xn) / n]: it differs from the mean by at most 1/2, a mean
    half-way between two integers going to the larger one, as [Math.round]
    does.  The mean is stated by the sum written out, not by the
    aggregator's own summation. *)
Theorem average_latency_is_rounded_mean :
  ∀ (x : Z) (latencies : list Z),
    let samples := x :: latencies in
    let mean :=
      (inject_Z (foldr Z.add 0%Z samples)
       / inject_Z (Z.of_nat (length samples)))%Q in
    let r := getAverageLatency samples in
    getAverageLatency [] = 0 ∧
    (mean - (1 # 2) < inject_Z r)%Q ∧
    (inject_Z r <= mean + (1 # 2))%Q ∧
    (Qabs (inject_Z r - mean) <= 1 # 2)%Q.
Proof.
  intros x latencies samples mean r. split; [done |].
  destruct (Math_round_nearest mean) as [Hlo Hhi].
  assert (r = Math_round mean) as ->.
  { subst r mean. unfold getAverageLatency.
    destruct (decide (length samples = 0%nat)) as [Hz | _]; [done |].
    cbv zeta. by rewrite sum_latencies_total. }
  split; [done |]. split; [done |].
  apply Qabs_case; intros _; lra.
Qed.

(** ** Reset of the period *)

Lemma count_of_zero_counts (k : string) : count_of k zero_counts = 0.
Proof.
  unfold count_of, zero_counts.
  repeat (rewrite lookup_insert; case_decide; [done |]).
  by rewrite lookup_empty.
Qed.

(** C5: after [resetPeriodMetrics] the HTTP counters are the zero object
    (every key reads 0), the two auth counters and the three pizza counters,
    revenue included, are 0; each latency window is its last
    [min (length, 50)] samples; the active-user map is the one before. *)
Theorem resetPeriodMetrics_zeroes_counters_only :
  ∀ m : Metrics,
    let m' := resetPeriodMetrics m in
    let trimmed (arr : list Z) :=
      drop (length arr - Nat.min (length arr) 50)%nat arr in
    httpRequestCounts m' = zero_counts ∧
    (∀ k : string, count_of k (httpRequestCounts m') = 0) ∧
    authAttempts m' = mkAuth 0 0 ∧
    pizzaMetrics m' = mkPizza 0 0 0%float ∧
    serviceLatencies (latencyMetrics m') =
      trimmed (serviceLatencies (latencyMetrics m)) ∧
    pizzaLatencies (latencyMetrics m') =
      trimmed (pizzaLatencies (latencyMetrics m)) ∧
    length (serviceLatencies (latencyMetrics m')) =
      Nat.min (length (serviceLatencies (latencyMetrics m))) 50 ∧
    length (pizzaLatencies (latencyMetrics m')) =
      Nat.min (length (pizzaLatencies (latencyMetrics m))) 50 ∧
    activeUsers m' = activeUsers m.
Proof.
  intros m m' trimmed. subst m' trimmed. simpl.
  repeat split; try done.
  - apply count_of_zero_counts.
  - rewrite trim_latencies_spec. f_equal. lia.
  - rewrite trim_latencies_spec. f_equal. lia.
  - apply trim_latencies_length.
  - apply trim_latencies_length.
Qed.

(** ** Pizza purchases *)

(** C7: [pizzaPurchase success latency rev] adds 1 to [sold] and [rev] to
    [revenue] when [success] holds and leaves [failures] alone; otherwise it
    adds 1 to [failures] and leaves [sold] and [revenue] alone.  In both
    cases [latency] is appended to the pizza window, the oldest sample
    leaving once 100 are held, and nothing else changes.  From the fresh
    state, [(true, 120, 9.99)] then [(false, 80, 0)] give sold 1,
    failures 1, revenue 9.99 and an average pizza latency of 100, which is
    what the next snapshot shows. *)
Theorem pizzaPurchase_counts_outcome_and_latency :
  ∀ (success : bool) (latency : Z) (rev : float) (m : Metrics)
    (config : Config) (toFixed2 : float → float) (now : Z) (h : Host),
    let m' := pizzaPurchase success latency rev m in
    let old := pizzaLatencies (latencyMetrics m) in
    let scenario :=
      pizzaPurchase false 80 0 (pizzaPurchase true 120 9.99 fresh) in
    let shown := metrics_object config toFixed2 now h scenario in
    sold (pizzaMetrics m') =
      (if success then sold (pizzaMetrics m) + 1 else sold (pizzaMetrics m)) ∧
    revenue (pizzaMetrics m') =
      (if success then PrimFloat.add (revenue (pizzaMetrics m)) rev
       else revenue (pizzaMetrics m)) ∧
    failures (pizzaMetrics m') =
      (if success then failures (pizzaMetrics m)
       else failures (pizzaMetrics m) + 1) ∧
    pizzaLatencies (latencyMetrics m') =
      (if (100 <=? length old)%nat then tail old ++ [latency]
       else old ++ [latency]) ∧
    serviceLatencies (latencyMetrics m') =
      serviceLatencies (latencyMetrics m) ∧
    httpRequestCounts m' = httpRequestCounts m ∧
    authAttempts m' = authAttempts m ∧
    activeUsers m' = activeUsers m ∧
    pizzaMetrics scenario = mkPizza 1 1 9.99 ∧
    getAverageLatency (pizzaLatencies (latencyMetrics scenario)) = 100 ∧
    get_property "pizzas_sold" shown = Some (VNumber 1) ∧
    get_property "pizza_failures" shown = Some (VNumber 1) ∧
    get_property "pizza_revenue" shown = Some (VNumber 9.99) ∧
    get_property "pizza_latency_avg" shown = Some (VNumber 100).
Proof.
  intros success latency rev m config toFixed2 now h m' old scenario shown.
  subst m' old. unfold pizzaPurchase at 1 2 3 4 5 6 7 8. simpl.
  rewrite push_shift_drops_oldest.
  destruct success; simpl; repeat split; reflexivity.
Qed.

(** ** Request counters *)

Lemma requestTracker_total method user now m :
  method ≠ "total" →
  count_of "total" (httpRequestCounts (requestTracker method user now m)) =
  count_of "total" (httpRequestCounts m) + 1.
Proof.
  intros Hne. unfold requestTracker, count_of. simpl.
  rewrite lookup_insert_ne by done. by rewrite lookup_insert_eq.
Qed.

Lemma requestTracker_method method user now m k :
  k ≠ "total" →
  count_of k (httpRequestCounts (requestTracker method user now m)) =
  count_of k (httpRequestCounts m) + (if decide (method = k) then 1 else 0).
Proof.
  intros Hne. unfold requestTracker, count_of. simpl.
  destruct (decide (method = k)) as [-> | Hmk].
  - rewrite !lookup_insert_eq. simpl. by rewrite lookup_insert_ne.
  - rewrite lookup_insert_ne by done. rewrite lookup_insert_ne by done. lia.
Qed.

Lemma calls_with_cons k (c : request) calls :
  calls_with k (c :: calls) =
  (if decide (c.1.1 = k) then 1 else 0) + calls_with k calls.
Proof.
  unfold calls_with. rewrite filter_cons.
  destruct (decide (c.1.1 = k)); simpl length; lia.
Qed.

Lemma record_requests_counts calls m :
  Forall (λ c : request, c.1.1 ≠ "total") calls →
  count_of "total" (httpRequestCounts (record_requests calls m)) =
    count_of "total" (httpRequestCounts m) + Z.of_nat (length calls) ∧
  ∀ k, k ≠ "total" →
    count_of k (httpRequestCounts (record_requests calls m)) =
    count_of k (httpRequestCounts m) + calls_with k calls.
Proof.
  revert m. induction calls as [| c calls IH]; intros m Hall.
  - simpl. split; [lia |]. intros k _. unfold calls_with. simpl. lia.
  - apply Forall_cons in Hall as [Hc Hall].
    destruct (IH (requestTracker c.1.1 c.1.2 c.2 m) Hall) as [IHt IHk].
    change (record_requests (c :: calls) m)
      with (record_requests calls (requestTracker c.1.1 c.1.2 c.2 m)).
    split.
    + rewrite IHt, requestTracker_total by done. simpl length. lia.
    + intros k Hk. rewrite (IHk k Hk), requestTracker_method by done.
      rewrite calls_with_cons. lia.
Qed.

Lemma node_http_methods_are_http_methods :
  forallb is_http_method node_http_methods = true.
Proof. by vm_compute. Qed.

Lemma http_method_not_total (method : string) :
  is_http_method method = true → method ≠ "total".
Proof. intros Hm ->. by vm_compute in Hm. Qed.

(** C2: for every sequence of [requestTracker] calls on the fresh
    aggregator with the method names the middleware receives (the HTTP
    methods Node's parser delivers: runs of upper-case letters and hyphens),
    [total] is the number of calls and the counter of every method is the
    number of calls made with it.  A call with a method the constructor does
    not list (PATCH, HEAD, OPTIONS, ...) is recorded like the others: after
    it [total] is one more and the method's own counter is one more than the
    calls made with it before. *)
Theorem request_counters_count_calls :
  ∀ calls : list request,
    Forall (λ c : request, is_http_method c.1.1 = true) calls →
    let m := record_requests calls fresh in
    count_of "total" (httpRequestCounts m) = Z.of_nat (length calls) ∧
    (∀ k : string, is_http_method k = true →
       count_of k (httpRequestCounts m) = calls_with k calls) ∧
    (∀ (method : string) (user : option Z) (now : Z),
       is_http_method method = true →
       let m' := requestTracker method user now m in
       count_of "total" (httpRequestCounts m') =
         Z.of_nat (length calls) + 1 ∧
       count_of method (httpRequestCounts m') =
         calls_with method calls + 1).
Proof.
  intros calls Hall m.
  destruct (record_requests_counts calls fresh) as [Ht Hk].
  { eapply Forall_impl; [exact Hall |]. intros c Hc.
    by apply http_method_not_total. }
  assert (count_of "total" (httpRequestCounts m) = Z.of_nat (length calls))
    as Htotal.
  { subst m. rewrite Ht. unfold fresh. simpl.
    rewrite count_of_zero_counts. lia. }
  assert (∀ k : string, is_http_method k = true →
            count_of k (httpRequestCounts m) = calls_with k calls) as Heach.
  { intros k Hkm. subst m.
    rewrite (Hk k (http_method_not_total k Hkm)). unfold fresh. simpl.
    rewrite count_of_zero_counts. lia. }
  split; [exact Htotal |]. split; [exact Heach |].
  intros method user now Hmethod m'. subst m'.
  pose proof (http_method_not_total method Hmethod) as Hne.
  rewrite requestTracker_total, requestTracker_method by done.
  rewrite Htotal, (Heach method Hmethod).
  destruct (decide (method = method)); [done | congruence].
Qed.

(** Three GET requests, one POST and one PATCH: total 5, GET 3, POST 1,
    PATCH 1, PUT 0; a HEAD request after them makes the total 6. *)
Lemma request_counters_count_calls_witness :
  let calls : list request :=
    [ ("GET", None, 1); ("POST", Some 7, 2); ("GET", None, 3);
      ("PATCH", None, 4); ("GET", Some 7, 5) ] in
  let m := record_requests calls fresh in
  Forall (λ c : request, is_http_method c.1.1 = true) calls ∧
  count_of "total" (httpRequestCounts m) = 5 ∧
  count_of "GET" (httpRequestCounts m) = 3 ∧
  count_of "POST" (httpRequestCounts m) = 1 ∧
  count_of "PATCH" (httpRequestCounts m) = 1 ∧
  count_of "PUT" (httpRequestCounts m) = 0 ∧
  count_of "total"
    (httpRequestCounts (requestTracker "HEAD" None 6 m)) = 6.
Proof.
  intros calls m.
  assert (Forall (λ c : request, is_http_method c.1.1 = true) calls)
    as Hall by (repeat constructor).
  destruct (request_counters_count_calls calls Hall) as (Ht & Hk & Hnext).
  split; [exact Hall |]. split; [exact Ht |].
  split; [exact (Hk "GET" eq_refl) |].
  split; [exact (Hk "POST" eq_refl) |].
  split; [exact (Hk "PATCH" eq_refl) |].
  split; [exact (Hk "PUT" eq_refl) |].
  exact (proj1 (Hnext "HEAD" None 6 eq_refl)).
Defined.

(** The restriction to the methods the middleware receives matters: the
    counters share one object with the key [total], so a call made directly
    with the string [total] as method, which no HTTP request produces, would
    be counted twice. *)
Lemma request_named_total_is_counted_twice :
  let calls : list request := [ ("total", None, 0) ] in
  let m := record_requests calls fresh in
  is_http_method "total" = false ∧
  Z.of_nat (length calls) = 1 ∧
  calls_with "total" calls = 1 ∧
  count_of "total" (httpRequestCounts m) = 2.
Proof. vm_compute. done. Qed.

(** ** Expiry of inactive users *)

Lemma expire_fold (cutoff : Z) (users acc : gmap Z Z) (k : Z) :
  map_fold
    (λ userId lastActivityTime (acc : gmap Z Z),
       if bool_decide (lastActivityTime < cutoff)
       then delete userId acc else acc)
    acc users !! k =
  match users !! k with
  | Some last => if bool_decide (last < cutoff) then None else acc !! k
  | None => acc !! k
  end.
Proof.
  revert k. apply (map_fold_weak_ind (λ r (m : gmap Z Z), ∀ k,
    r !! k = match m !! k with
             | Some last => if bool_decide (last < cutoff) then None
                            else acc !! k
             | None => acc !! k
             end)).
  - intros k. by rewrite lookup_empty.
  - intros i x m r Hi IH k. destruct (decide (i = k)) as [-> | Hik].
    + rewrite lookup_insert_eq. case_bool_decide.
      * by rewrite lookup_delete_eq.
      * rewrite IH, Hi. done.
    + rewrite lookup_insert_ne by done. rewrite <- IH.
      case_bool_decide; [by rewrite lookup_delete_ne | done].
Qed.

Lemma expire_inactive_lookup (cutoff : Z) (users : gmap Z Z) (k : Z) :
  expire_inactive cutoff users !! k =
  match users !! k with
  | Some last => if bool_decide (last < cutoff) then None else Some last
  | None => None
  end.
Proof.
  unfold expire_inactive. rewrite expire_fold.
  destruct (users !! k) as [last |] eqn:Hk; [| done].
  by case_bool_decide.
Qed.

Section Expiry.

Variable config : Config.
Variable toFixed2 : float → float.

(** C6: the expiry pass of [sendMetrics] at time [now] removes exactly the
    users whose last activity satisfies [now - last > 5 minutes] and keeps
    the others with their times: a user one millisecond short of the
    boundary, or exactly on it, stays, a user one millisecond past it goes.
    The pass is what [sendMetrics] leaves in [activeUsers], and the snapshot
    counts the users that remain.  No other call expires anything: apart from
    [sendMetrics] and the explicit [removeActiveUser], every call keeps every
    registered user, however old the entry. *)
Theorem inactive_users_expire_in_sendMetrics_only :
  ∀ (users : gmap Z Z) (now k : Z) (m : Metrics)
    (clock : Z) (h : Host) (fetched : Request → fetch_outcome) (c : call),
    let fiveMinutes := 5 * 60 * 1000 in
    let kept := expire_inactive (now - fiveMinutes) users in
    let m1 :=
      set_activeUsers (expire_inactive (now - fiveMinutes) (activeUsers m))
                      m in
    kept !! k =
      match users !! k with
      | Some last =>
          if bool_decide (now - last > fiveMinutes) then None else Some last
      | None => None
      end ∧
    expire_inactive (now - fiveMinutes)
      (<[k := now - (fiveMinutes - 1)]> users) !! k
      = Some (now - (fiveMinutes - 1)) ∧
    expire_inactive (now - fiveMinutes)
      (<[k := now - fiveMinutes]> users) !! k
      = Some (now - fiveMinutes) ∧
    expire_inactive (now - fiveMinutes)
      (<[k := now - (fiveMinutes + 1)]> users) !! k = None ∧
    activeUsers (sendMetrics config toFixed2 now clock h fetched m).1 =
      activeUsers m1 ∧
    (∃ rest,
       (sendMetrics config toFixed2 now clock h fetched m).2 =
       MetricsCollected (metrics_object config toFixed2 now h m1) :: rest) ∧
    get_property "active_users" (metrics_object config toFixed2 now h m1) =
      Some (VNumber (Z2F (Z.of_nat (size (activeUsers m1))))) ∧
    match c with
    | CallSendMetrics _ _ => True
    | CallRemoveActiveUser userId =>
        activeUsers (step config toFixed2 m c) =
        match truthy userId with
        | Some id => delete id (activeUsers m)
        | None => activeUsers m
        end
    | _ => dom (activeUsers m) ⊆ dom (activeUsers (step config toFixed2 m c))
    end.
Proof.
  intros users now k m clock h fetched c fiveMinutes kept m1.
  subst kept m1 fiveMinutes. repeat split.
  - rewrite expire_inactive_lookup.
    destruct (users !! k) as [last |]; [| done].
    repeat case_bool_decide; done || lia.
  - rewrite expire_inactive_lookup, lookup_insert_eq.
    case_bool_decide; done || lia.
  - rewrite expire_inactive_lookup, lookup_insert_eq.
    case_bool_decide; done || lia.
  - rewrite expire_inactive_lookup, lookup_insert_eq.
    case_bool_decide; done || lia.
  - by rewrite sendMetrics_state.
  - unfold sendMetrics. simpl. rewrite sendMetrics_resumed_console.
    by eexists.
  - destruct c; simpl; try done.
    + destruct (truthy user); [| done]. rewrite dom_insert_L. set_solver.
    + unfold recordAuthAttempt. destruct success; simpl; [| done].
      destruct (truthy userId); [| done]. rewrite dom_insert_L. set_solver.
    + unfold updateUserActivity. destruct (truthy userId); simpl; [| done].
      rewrite dom_insert_L. set_solver.
    + unfold removeActiveUser. by destruct (truthy userId).
    + by rewrite sendMetrics_resumed_state.
Qed.

End Expiry.

(** ** CPU percentage *)

Lemma SFcompare_antisym (a b : spec_float) :
  SFcompare a b = option_map CompOpp (SFcompare b a).
Proof.
  destruct a as [sa | sa | | sa ma ea], b as [sb | sb | | sb mb eb];
    simpl; try done; try (by destruct sa); try (by destruct sb);
    try (by destruct sa, sb).
  destruct sa, sb; simpl; try done.
  - rewrite (Z.compare_antisym ea eb).
    destruct (ea ?= eb)%Z eqn:He; simpl; try done.
    by rewrite (Pos.compare_cont_antisym mb ma Eq).
  - rewrite (Z.compare_antisym ea eb).
    destruct (ea ?= eb)%Z eqn:He; simpl; try done.
    by rewrite (Pos.compare_cont_antisym mb ma Eq).
Qed.

Lemma not_nan_compare (x y : float) :
  PrimFloat.is_nan x = false → PrimFloat.is_nan y = false →
  ∃ c, SFcompare (Prim2SF x) (Prim2SF y) = Some c.
Proof.
  unfold PrimFloat.is_nan. rewrite !FloatAxioms.eqb_spec. unfold SFeqb.
  destruct (Prim2SF x), (Prim2SF y); simpl; intros Hx Hy;
    try discriminate; by eexists.
Qed.

(** For numbers that are not [NaN], [x <= y] holds when [y < x] fails. *)
Lemma leb_of_not_ltb (x y : float) :
  PrimFloat.is_nan x = false → PrimFloat.is_nan y = false →
  PrimFloat.ltb y x = false → PrimFloat.leb x y = true.
Proof.
  intros Hx Hy. rewrite FloatAxioms.ltb_spec, FloatAxioms.leb_spec.
  unfold SFltb, SFleb.
  destruct (not_nan_compare y x Hy Hx) as [c Hc].
  rewrite (SFcompare_antisym (Prim2SF x) (Prim2SF y)), Hc. simpl.
  by destruct c.
Qed.

Lemma Math_min_100 (x : float) :
  PrimFloat.ltb 100 (Math_min x 100) = false ∧
  (PrimFloat.leb (Math_min x 100) 100
   || PrimFloat.is_nan (Math_min x 100)) = true.
Proof.
  unfold Math_min.
  destruct (PrimFloat.is_nan x) eqn:Hnan; simpl; [by split |].
  set (lowest := min_step PrimFloat.infinity x).
  unfold min_step at 1 2.
  change (is_neg_zero 100) with false. simpl.
  destruct (PrimFloat.ltb 100 lowest) eqn:Hlt; [by split |].
  split; [done |].
  assert (lowest = x) as ->.
  { subst lowest. unfold min_step in *.
    change (is_pos_zero PrimFloat.infinity) with false in *.
    rewrite andb_false_r in *.
    destruct (PrimFloat.ltb x PrimFloat.infinity); [done |].
    discriminate Hlt. }
  rewrite leb_of_not_ltb; done.
Qed.

Lemma Math_min_100_nan (x : float) :
  PrimFloat.is_nan (Math_min x 100) = PrimFloat.is_nan x.
Proof.
  unfold Math_min.
  destruct (PrimFloat.is_nan x) eqn:Hnan; simpl; [done |].
  unfold min_step.
  change (is_pos_zero PrimFloat.infinity) with false.
  change (is_neg_zero 100) with false.
  rewrite andb_false_r. simpl andb. cbv iota.
  destruct (PrimFloat.ltb x PrimFloat.infinity);
    match goal with
    | |- context [if ?b then _ else _] => destruct b
    end; done.
Qed.

Lemma leb_nan (x y : float) :
  PrimFloat.is_nan x = true → PrimFloat.leb x y = false.
Proof.
  unfold PrimFloat.is_nan.
  rewrite FloatAxioms.leb_spec, FloatAxioms.eqb_spec. unfold SFleb, SFeqb.
  intros Hnan.
  destruct (Prim2SF x) as [[] | [] | | [] m e]; simpl in *; try done;
    by rewrite Z.compare_refl, Pos.compare_cont_refl in Hnan.
Qed.

(** C10, as amended: whatever the host answers (any load average, any
    number of CPUs, zero included), [getCpuUsagePercentage] is never greater
    than 100.  It is at most 100 exactly when [loadavg / cpus * 100] is a
    number; when that quotient is [NaN] (a load of 0 on a host that reports
    0 CPUs) the result is [NaN], which is neither greater than 100 nor at
    most 100.  The [cpu_percent] property of every snapshot is this
    value. *)
Theorem cpu_percent_is_capped_at_100 :
  ∀ (h : Host) (config : Config) (toFixed2 : float → float) (now : Z)
    (m : Metrics),
    let raw :=
      PrimFloat.mul (PrimFloat.div (loadavg1 h) (Z2F (cpus_length h))) 100 in
    let cpu := getCpuUsagePercentage h in
    PrimFloat.ltb 100 cpu = false ∧
    PrimFloat.leb cpu 100 = negb (PrimFloat.is_nan raw) ∧
    PrimFloat.is_nan cpu = PrimFloat.is_nan raw ∧
    get_property "cpu_percent" (metrics_object config toFixed2 now h m) =
      Some (VNumber cpu).
Proof.
  intros h config toFixed2 now m raw cpu. subst cpu.
  unfold getCpuUsagePercentage. fold raw.
  destruct (Math_min_100 raw) as [Hlt Hle].
  pose proof (Math_min_100_nan raw) as Hnan.
  split; [done |]. split; [| by split].
  destruct (PrimFloat.is_nan raw) eqn:Hraw; simpl.
  - by apply leb_nan.
  - rewrite Hnan in Hle. by rewrite orb_false_r in Hle.
Qed.

(** C10, as stated, fails on an idle host that reports no CPU: load 0 on 0
    CPUs gives [0 / 0 * 100], which is [NaN]; the snapshot holds [NaN] as
    [cpu_percent], and [NaN] is not at most 100. *)
Lemma cpu_percent_of_an_idle_host_without_cpus :
  let h := mkHost 0 0 16 8 in
  let config := mkConfig "jwt-pizza-service" "https://collector" "key" in
  let cpu := getCpuUsagePercentage h in
  PrimFloat.is_nan cpu = true ∧
  PrimFloat.leb cpu 100 = false ∧
  (PrimFloat.is_nan <$>
     (get_property "cpu_percent"
        (metrics_object config (λ x, x) 1000 h fresh)
      ≫= λ v, match v with VNumber x => Some x | VString _ => None end)) =
    Some true.
Proof. vm_compute. done. Qed.

(** ** The encoder *)

Lemma getMetricUnit_by_convention (metricName : string) :
  getMetricUnit metricName = unit_by_convention metricName.
Proof.
  unfold getMetricUnit, unit_by_convention.
  repeat match goal with |- context [if ?b then _ else _] => destruct b end;
    done.
Qed.

Lemma payload_metrics_build (clock : Z) (snap : snapshot) :
  payload_metrics (buildOtelMetrics clock snap) =
  List.map
    (λ e : string * value,
       mkMetric e.1 (String.append e.1 " metric from JWT Pizza Service")
         (getMetricUnit e.1)
         [mkDataPoint [mkAttribute "source" (get_source snap)]
            (number_of e.2) (PrimFloat.mul (Z2F clock) 1000000)])
    (List.filter is_metric_entry snap).
Proof.
  unfold payload_metrics, buildOtelMetrics. simpl. by rewrite app_nil_r.
Qed.

Lemma is_metric_entry_spec (k : string) (v : value) :
  is_metric_entry (k, v) = true ↔
  k ≠ "source" ∧ k ≠ "timestamp" ∧ ∃ x, v = VNumber x.
Proof.
  unfold is_metric_entry. simpl.
  rewrite !andb_true_iff, !bool_decide_eq_true.
  destruct v as [s | x]; simpl; split.
  - intros [_ ?]. discriminate.
  - intros (_ & _ & x & ?). discriminate.
  - intros [[? ?] _]. eauto.
  - intros (? & ? & _). done.
Qed.

(** C8, as amended: the encoder emits one gauge metric for each property of
    the snapshot that holds a number and is not [source] or [timestamp], in
    the order of the properties; the metric is named after the property, its
    unit follows the naming convention, and its single data point carries
    the property's value and, as [timeUnixNano], the clock reading the
    encoder takes itself ([Date.now()] at encoding time) times 1,000,000 in
    double arithmetic, not the snapshot's [timestamp].  For a snapshot built
    by [sendMetrics] these are the fifteen metrics listed. *)
Theorem encoder_emits_one_gauge_per_numeric_property :
  ∀ (clock : Z) (snap : snapshot)
    (config : Config) (toFixed2 : float → float) (now : Z) (h : Host)
    (m : Metrics),
    let fields := List.filter is_metric_entry snap in
    let emitted := payload_metrics (buildOtelMetrics clock snap) in
    (∀ (k : string) (v : value),
       In (k, v) fields ↔
       In (k, v) snap ∧ k ≠ "source" ∧ k ≠ "timestamp" ∧ ∃ x, v = VNumber x) ∧
    length emitted = length fields ∧
    Forall2
      (λ (e : string * value) (mt : Metric),
         name mt = e.1 ∧
         unit mt = unit_by_convention e.1 ∧
         ∃ point,
           gauge_dataPoints mt = [point] ∧
           asDouble point = number_of e.2 ∧
           timeUnixNano point = PrimFloat.mul (Z2F clock) 1000000)
      fields emitted ∧
    List.map (λ mt, (name mt, unit mt))
      (payload_metrics
         (buildOtelMetrics clock (metrics_object config toFixed2 now h m))) =
      [ ("http_requests_total", "1"); ("http_requests_get", "1");
        ("http_requests_post", "1"); ("http_requests_put", "1");
        ("http_requests_delete", "1"); ("auth_attempts_successful", "1");
        ("auth_attempts_failed", "1"); ("active_users", "1");
        ("cpu_percent", "%"); ("memory_percent", "%"); ("pizzas_sold", "1");
        ("pizza_failures", "1"); ("pizza_revenue", "USD");
        ("service_latency_avg", "ms"); ("pizza_latency_avg", "ms") ].
Proof.
  intros clock snap config toFixed2 now h m fields emitted.
  subst fields emitted. rewrite payload_metrics_build.
  split; [| split; [| split]].
  - intros k v. rewrite filter_In, is_metric_entry_spec. tauto.
  - by rewrite length_map.
  - induction (List.filter is_metric_entry snap) as [| e fields IH];
      simpl; constructor; [| exact IH].
    split; [done |]. split; [apply getMetricUnit_by_convention |].
    eexists. repeat split.
  - reflexivity.
Qed.

(** C8, as stated, fails on the time stamp: a snapshot taken at clock
    reading 1000 and encoded at clock reading 1001 carries
    [timeUnixNano = 1001000000] in each of its fifteen data points, which is
    not its [timestamp] in nanoseconds (1000000000). *)
Lemma encoder_stamps_its_own_clock_reading :
  let snap :=
    metrics_object (mkConfig "jwt-pizza-service" "" "") (λ x, x) 1000
                   (mkHost 1 4 16 8) fresh in
  let emitted := payload_metrics (buildOtelMetrics 1001 snap) in
  get_property "timestamp" snap = Some (VNumber 1000) ∧
  List.map (λ mt, List.map timeUnixNano (gauge_dataPoints mt)) emitted =
    replicate 15 [1001000000%float] ∧
  PrimFloat.mul 1000 1000000 = 1000000000%float ∧
  PrimFloat.eqb 1001000000 1000000000 = false.
Proof. vm_compute. done. Qed.

(** C9: two encodings of one snapshot are equal once their time stamps are
    set aside, whatever the two clock readings; the time stamp is a function
    of the clock reading alone, so the encoding at reading [c1] is the
    encoding at any reading [c2] stamped anew, and two encodings under the
    same reading are the same payload and make the same request. *)
Theorem encoder_is_deterministic :
  ∀ (snap : snapshot) (c1 c2 : Z) (t : float) (config : Config),
    restamp t (buildOtelMetrics c1 snap) =
      restamp t (buildOtelMetrics c2 snap) ∧
    buildOtelMetrics c1 snap =
      restamp (PrimFloat.mul (Z2F c1) 1000000) (buildOtelMetrics c2 snap) ∧
    (c1 = c2 →
       buildOtelMetrics c1 snap = buildOtelMetrics c2 snap ∧
       request_of config (buildOtelMetrics c1 snap) =
         request_of config (buildOtelMetrics c2 snap)).
Proof.
  intros snap c1 c2 t config.
  assert (∀ c t', restamp t' (buildOtelMetrics c snap) =
                  mkPayload
                    [ mkResourceMetrics
                        [ mkAttribute "service.name" (get_source snap);
                          mkAttribute "service.version" "1.0.0" ]
                        [ mkScopeMetrics
                            (mkScope "jwt-pizza-service-metrics" "1.0.0")
                            (List.map
                               (λ e : string * value,
                                  mkMetric e.1
                                    (String.append e.1
                                       " metric from JWT Pizza Service")
                                    (getMetricUnit e.1)
                                    [mkDataPoint
                                       [mkAttribute "source" (get_source snap)]
                                       (number_of e.2) t'])
                               (List.filter is_metric_entry snap)) ] ])
    as Hstamp.
  { intros c t'. unfold restamp, buildOtelMetrics. simpl.
    by rewrite List.map_map. }
  split; [by rewrite !Hstamp |]. split.
  - rewrite Hstamp. reflexivity.
  - intros ->. done.
Qed.

(** Two encodings of the snapshot of a fresh aggregator, both at clock
    reading 1000. *)
Lemma encoder_is_deterministic_witness :
  let config := mkConfig "jwt-pizza-service" "https://collector" "key" in
  let snap := metrics_object config (λ x, x) 1000 (mkHost 1 4 16 8) fresh in
  buildOtelMetrics 1000 snap = buildOtelMetrics 1000 snap ∧
  request_of config (buildOtelMetrics 1000 snap) =
    request_of config (buildOtelMetrics 1000 snap) ∧
  restamp 0 (buildOtelMetrics 1000 snap) =
    restamp 0 (buildOtelMetrics 2000 snap).
Proof.
  intros config snap.
  destruct (encoder_is_deterministic snap 1000 1000 0%float config)
    as (_ & _ & Hsame).
  destruct (Hsame eq_refl) as [Hpayload Hrequest].
  destruct (encoder_is_deterministic snap 1000 2000 0%float config)
    as (Hmodulo & _ & _).
  split; [exact Hpayload |]. split; [exact Hrequest | exact Hmodulo].
Defined.

(** ** The reporting cycle and the reset *)

Section Cycle.

Variable config : Config.
Variable toFixed2 : float → float.

(** C1, as amended: in every reporting cycle [resetPeriodMetrics] runs once
    the delivery attempt has returned, whatever its outcome.
    [sendToGrafana] catches a rejected [fetch] and logs a non-2xx answer;
    it returns normally in each case, so [sendMetrics] never takes its own
    [catch], and whatever state the aggregator is in when the cycle resumes,
    the cycle leaves it reset: the HTTP, auth and pizza counters are zero
    whether the collector answered 2xx, answered something else, or was not
    reached.  The outcome shows on the console only, and a snapshot taken
    right after the cycle reports zero for the period counters. *)
Theorem sendMetrics_resets_whatever_the_delivery :
  ∀ (now clock : Z) (h : Host) (fetched : Request → fetch_outcome)
    (m at_resumption : Metrics) (now' : Z) (h' : Host),
    let started := sendMetrics_suspended config toFixed2 now h m in
    let snap := started.2 in
    let delivery := sendToGrafana config clock fetched snap in
    let cycle := sendMetrics_resumed delivery at_resumption in
    let next := metrics_object config toFixed2 now' h' cycle.1 in
    delivery.2 = inl tt ∧
    cycle.1 = resetPeriodMetrics at_resumption ∧
    sendMetrics config toFixed2 now clock h fetched m =
      sendMetrics_resumed delivery started.1 ∧
    httpRequestCounts cycle.1 = zero_counts ∧
    authAttempts cycle.1 = mkAuth 0 0 ∧
    pizzaMetrics cycle.1 = mkPizza 0 0 0%float ∧
    cycle.2 =
      [ MetricsCollected snap;
        match fetched (request_of config (buildOtelMetrics clock snap)) with
        | Resolved response =>
            if ok response then MetricsSuccessfullySent
            else match text response with
                 | inl errorText =>
                     FailedToSendMetrics (status response)
                                         (statusText response) errorText
                 | inr message => ErrorSendingToGrafana message
                 end
        | Rejected message => ErrorSendingToGrafana message
        end ] ∧
    get_property "http_requests_total" next = Some (VNumber 0) ∧
    get_property "auth_attempts_successful" next = Some (VNumber 0) ∧
    get_property "auth_attempts_failed" next = Some (VNumber 0) ∧
    get_property "pizzas_sold" next = Some (VNumber 0) ∧
    get_property "pizza_failures" next = Some (VNumber 0) ∧
    get_property "pizza_revenue" next = Some (VNumber 0).
Proof.
  intros now clock h fetched m at_resumption now' h'
    started snap delivery cycle next.
  assert (cycle.1 = resetPeriodMetrics at_resumption) as Hstate
    by apply sendMetrics_resumed_state.
  subst next. rewrite Hstate.
  split; [apply sendToGrafana_returns |].
  split; [done |].
  split; [done |]. split; [done |]. split; [done |]. split; [done |].
  split; [apply sendMetrics_resumed_console |].
  repeat split.
Qed.

End Cycle.

(** C1, as stated, fails when the collector answers 500: one request is
    counted, the cycle logs the failure and resets the counter all the same;
    one more request and a cycle that is answered 200 then report 1 request,
    not the 2 of both periods. *)
Lemma counters_are_reset_after_a_failed_delivery :
  let config := mkConfig "jwt-pizza-service" "https://collector" "key" in
  let h := mkHost 1 4 16 8 in
  let answer500 (_ : Request) :=
    Resolved (mkResponse 500 "Internal Server Error" (inl "")) in
  let answer200 (_ : Request) := Resolved (mkResponse 200 "OK" (inl "")) in
  let m0 := requestTracker "GET" None 1000 fresh in
  let cycle1 := sendMetrics config (λ x, x) 30000 30000 h answer500 m0 in
  let m2 := requestTracker "GET" None 40000 cycle1.1 in
  let cycle2 := sendMetrics config (λ x, x) 60000 60000 h answer200 m2 in
  ok (mkResponse 500 "Internal Server Error" (inl "")) = false ∧
  count_of "total" (httpRequestCounts m0) = 1 ∧
  last cycle1.2 =
    Some (FailedToSendMetrics 500 "Internal Server Error" "") ∧
  count_of "total" (httpRequestCounts cycle1.1) = 0 ∧
  last cycle2.2 = Some MetricsSuccessfullySent ∧
  reported cycle2.2 ≫= get_property "http_requests_total" =
    Some (VNumber 1) ∧
  PrimFloat.eqb 1 2 = false.
Proof. vm_compute. done. Qed.

(** * Further properties of the aggregator *)

(** ** Counters over a history *)

Lemma since_reset_snoc (calls : list call) (c : call) :
  since_reset (calls ++ [c]) =
  if is_reset c then [] else since_reset calls ++ [c].
Proof. unfold since_reset. by rewrite fold_left_app. Qed.

Lemma count_calls_snoc (p : call → bool) (calls : list call) (c : call) :
  count_calls p (calls ++ [c]) =
  count_calls p calls + (if p c then 1 else 0).
Proof.
  unfold count_calls. rewrite List.filter_app, length_app. simpl.
  destruct (p c); simpl; lia.
Qed.

Lemma revenues_snoc (calls : list call) (c : call) :
  revenues (calls ++ [c]) =
  revenues calls ++
  match c with CallPizzaPurchase true _ rev => [rev] | _ => [] end.
Proof.
  unfold revenues. rewrite omap_app. f_equal.
  destruct c; try done. by destruct success.
Qed.

Section History.

Variable config : Config.
Variable toFixed2 : float → float.

Lemma run_snoc (calls : list call) (c : call) (m : Metrics) :
  run config toFixed2 (calls ++ [c]) m =
  step config toFixed2 (run config toFixed2 calls m) c.
Proof. unfold run. by rewrite fold_left_app. Qed.

(** X1: at any point of any history of calls on the aggregator, the two
    auth counters are the numbers of successful and of failed
    [recordAuthAttempt] calls made since the last reset, the pizza counters
    the numbers of successful and of failed [pizzaPurchase] calls since
    then, and the revenue is the sum, taken in call order in double
    arithmetic from 0, of the revenues of the successful purchases since
    then.  No other call touches these counters. *)
Theorem auth_and_pizza_counters_count_the_period :
  ∀ calls : list call,
    let m := run config toFixed2 calls fresh in
    let period := since_reset calls in
    successful (authAttempts m) = count_calls (is_auth true) period ∧
    failed (authAttempts m) = count_calls (is_auth false) period ∧
    sold (pizzaMetrics m) = count_calls (is_purchase true) period ∧
    failures (pizzaMetrics m) = count_calls (is_purchase false) period ∧
    revenue (pizzaMetrics m) =
      fold_left PrimFloat.add (revenues period) 0%float.
Proof.
  induction calls as [| c calls IH] using rev_ind; [done |].
  cbv zeta in *. rewrite run_snoc, since_reset_snoc.
  destruct IH as (Hs & Hf & Hp & Hq & Hr).
  destruct c; simpl is_reset; cbv iota;
    rewrite ?count_calls_snoc, ?revenues_snoc, ?fold_left_app; simpl;
    rewrite ?sendMetrics_resumed_state;
    unfold recordAuthAttempt, updateUserActivity, removeActiveUser;
    try destruct success; try destruct (truthy userId); simpl;
    rewrite ?Z.add_0_r; repeat split; congruence.
Qed.

End History.

Section RequestHistory.

Variable config : Config.
Variable toFixed2 : float → float.

Lemma reserved_not_total (k : string) : k ∉ reserved_names → k ≠ "total".
Proof. intros Hk ->. apply Hk. unfold reserved_names. set_solver. Qed.

Lemma step_counts_reset (m : Metrics) (c : call) :
  is_reset c = true →
  httpRequestCounts (step config toFixed2 m c) = zero_counts.
Proof.
  destruct c; try discriminate; intros _; simpl;
    by rewrite ?sendMetrics_resumed_state.
Qed.

Lemma step_counts_frame (m : Metrics) (c : call) :
  is_reset c = false → is_request c = false →
  httpRequestCounts (step config toFixed2 m c) = httpRequestCounts m.
Proof.
  destruct c; try discriminate; intros _ _; simpl;
    unfold recordAuthAttempt, updateUserActivity, removeActiveUser;
    try destruct success; try destruct (truthy userId); done.
Qed.

(** X2: at any point of a history whose requests carry method names that
    are not reserved, the [total] counter is the number of [requestTracker]
    calls made since the last reset and the counter of every such method
    name is the number of those calls made with it, whatever other calls
    (auth attempts, purchases, activity, reporting cycles) the history
    interleaves. *)
Theorem request_counters_count_the_period :
  ∀ calls : list call,
    plain_methods calls →
    let m := run config toFixed2 calls fresh in
    let period := since_reset calls in
    count_of "total" (httpRequestCounts m) = count_calls is_request period ∧
    ∀ k : string, k ∉ reserved_names →
      count_of k (httpRequestCounts m) =
      count_calls (is_request_with k) period.
Proof.
  induction calls as [| c calls IH] using rev_ind; intros Hplain.
  - split; [done |]. intros k _. apply count_of_zero_counts.
  - apply Forall_app in Hplain as [Hcalls Hc].
    apply Forall_cons in Hc as [Hc _].
    destruct (IH Hcalls) as [IHt IHk]. clear IH. cbv zeta.
    rewrite run_snoc, since_reset_snoc.
    destruct (is_reset c) eqn:Hreset.
    { rewrite step_counts_reset by done.
      split; [done |]. intros k _. apply count_of_zero_counts. }
    destruct (is_request c) eqn:Hrequest.
    + destruct c as [method user now | | | | | | | |]; try discriminate.
      unfold step. split.
      * rewrite count_calls_snoc. simpl (is_request _).
        rewrite requestTracker_total by by apply reserved_not_total.
        by rewrite IHt.
      * intros k Hk. rewrite count_calls_snoc. simpl (is_request_with _ _).
        rewrite requestTracker_method by by apply reserved_not_total.
        rewrite (IHk k Hk). by rewrite (decide_bool_decide (method = k)).
    + rewrite step_counts_frame by done. split.
      * rewrite count_calls_snoc, Hrequest. lia.
      * intros k Hk. rewrite count_calls_snoc, (IHk k Hk).
        destruct c; try discriminate; simpl; lia.
Qed.

End RequestHistory.

(** A GET, the start of a cycle, a POST recorded during the delivery, the
    resumption of the cycle, then a GET and a PATCH: the counters hold the
    two requests made after the reset. *)
Lemma request_counters_count_the_period_witness :
  let config := mkConfig "jwt-pizza-service" "https://collector" "key" in
  let h := mkHost 1 4 16 8 in
  let answer (_ : Request) := Resolved (mkResponse 200 "OK" (inl "")) in
  let calls :=
    [ CallRequestTracker "GET" None 1000;
      CallSendMetrics 30000 h;
      CallRequestTracker "POST" (Some 7) 30001;
      CallSendMetricsResumed 30000 answer [];
      CallRequestTracker "GET" None 30500;
      CallRequestTracker "PATCH" None 31000 ] in
  let m := run config (λ x, x) calls fresh in
  count_of "total" (httpRequestCounts m) = 2 ∧
  count_of "GET" (httpRequestCounts m) = 1 ∧
  count_of "PATCH" (httpRequestCounts m) = 1 ∧
  count_of "POST" (httpRequestCounts m) = 0.
Proof.
  intros config h answer calls m.
  assert (plain_methods calls) as Hplain.
  { repeat constructor; apply (bool_decide_unpack _); vm_compute;
      reflexivity. }
  destruct (request_counters_count_the_period config (λ x, x) calls Hplain)
    as [Ht Hk].
  split; [exact Ht |].
  repeat split; apply Hk; apply (bool_decide_unpack _); vm_compute;
    reflexivity.
Defined.

(** ** The registry of active users *)

Lemma expire_inactive_filter (cutoff : Z) (users : gmap Z Z) :
  expire_inactive cutoff users =
  filter (λ entry : Z * Z, ¬ entry.2 < cutoff) users.
Proof.
  apply map_eq. intros k. rewrite expire_inactive_lookup.
  destruct (users !! k) as [last |] eqn:Hk.
  - case_bool_decide as Hlast; symmetry.
    + apply map_lookup_filter_None_2. right. intros x Hx. simpl.
      rewrite Hk in Hx. injection Hx as <-. tauto.
    + by apply map_lookup_filter_Some_2.
  - symmetry. apply map_lookup_filter_None_2. by left.
Qed.

(** X3: the expiry loop, which deletes from the map it iterates over,
    leaves exactly the entries whose time is not before the cutoff: it is a
    filter of the registry.  What remains is a part of the registry with the
    times unchanged, never more users than before, and a second pass with
    the same cutoff removes nothing more. *)
Theorem expiry_loop_is_a_filter :
  ∀ (cutoff : Z) (users : gmap Z Z),
    expire_inactive cutoff users =
      filter (λ entry : Z * Z, ¬ entry.2 < cutoff) users ∧
    expire_inactive cutoff users ⊆ users ∧
    (size (expire_inactive cutoff users) ≤ size users)%nat ∧
    expire_inactive cutoff (expire_inactive cutoff users) =
      expire_inactive cutoff users.
Proof.
  intros cutoff users. rewrite !expire_inactive_filter.
  split; [done |]. split; [apply map_filter_subseteq |].
  split; [apply map_size_filter |].
  apply map_filter_id. intros i x Hx.
  by apply map_lookup_filter_Some_1_2 in Hx.
Qed.

Lemma expire_inactive_twice (cutoff1 cutoff2 : Z) (users : gmap Z Z) :
  expire_inactive cutoff2 (expire_inactive cutoff1 users) =
  expire_inactive (Z.max cutoff1 cutoff2) users.
Proof.
  apply map_eq. intros k. rewrite !expire_inactive_lookup.
  destruct (users !! k) as [last |]; [| done].
  repeat case_bool_decide; done || lia.
Qed.

(** X4: two expiry passes in a row amount to one pass at the later of the
    two cutoffs, in either order: a reporting cycle that runs late, or one
    that is skipped, does not change which users the next pass keeps. *)
Theorem expiry_passes_compose :
  ∀ (now1 now2 : Z) (users : gmap Z Z),
    let fiveMinutes := 5 * 60 * 1000 in
    expire_inactive (now2 - fiveMinutes)
      (expire_inactive (now1 - fiveMinutes) users) =
    expire_inactive (Z.max now1 now2 - fiveMinutes) users.
Proof.
  intros now1 now2 users fiveMinutes. subst fiveMinutes.
  rewrite expire_inactive_twice. f_equal. lia.
Qed.

Lemma truthy_Some (userId : option Z) (id : Z) :
  truthy userId = Some id ↔ userId = Some id ∧ id ≠ 0.
Proof.
  unfold truthy. destruct userId as [x |]; [| by split; [| intros []]].
  destruct (Z.eqb_spec x 0) as [-> | Hx]; split.
  - discriminate.
  - intros [[= <-] Hid]. done.
  - intros [= <-]. done.
  - intros [[= <-] _]. done.
Qed.

Lemma truthy_nonzero (id : Z) : id ≠ 0 → truthy (Some id) = Some id.
Proof. intros Hid. by apply truthy_Some. Qed.

Section Registry.

Variable config : Config.
Variable toFixed2 : float → float.

(** X5: an authenticated request, a successful login and an explicit
    activity update at time [t] each register the user with that time; after
    the next reporting cycle, at time [now], the user is still registered
    with time [t] exactly when [now - t] is at most five minutes.  A failed
    login is no activity: the cycle finds the user as if it had not
    happened.  A user removed by [removeActiveUser] is not registered after
    the cycle. *)
Theorem activity_keeps_a_user_registered_for_five_minutes :
  ∀ (id t now clock : Z) (h : Host) (fetched : Request → fetch_outcome)
    (method : string) (m : Metrics),
    id ≠ 0 →
    let after_cycle (m' : Metrics) :=
      activeUsers (sendMetrics config toFixed2 now clock h fetched m').1
        !! id in
    let still :=
      if bool_decide (now - t > 5 * 60 * 1000) then None else Some t in
    after_cycle (requestTracker method (Some id) t m) = still ∧
    after_cycle (recordAuthAttempt true (Some id) t m) = still ∧
    after_cycle (updateUserActivity (Some id) t m) = still ∧
    after_cycle (recordAuthAttempt false (Some id) t m) = after_cycle m ∧
    after_cycle (removeActiveUser (Some id) m) = None.
Proof.
  intros id t now clock h fetched method m Hid after_cycle still.
  subst after_cycle still. cbv beta. rewrite !sendMetrics_state.
  unfold requestTracker, recordAuthAttempt, updateUserActivity,
    removeActiveUser.
  rewrite (truthy_nonzero id Hid). cbn [activeUsers resetPeriodMetrics
    set_activeUsers].
  rewrite !expire_inactive_lookup, !lookup_insert_eq, lookup_delete_eq.
  repeat split; repeat case_bool_decide; done || lia.
Qed.

(** X6: on any history of calls from the fresh aggregator the registry
    holds no entry for the user id 0, the id that fails the source's
    [if (userId)] test; a request without a user and an auth attempt or an
    activity update without a user id leave the registry as it is. *)
Theorem falsy_user_ids_are_never_registered :
  ∀ (calls : list call) (method : string) (success : bool) (now : Z)
    (m : Metrics),
    activeUsers (run config toFixed2 calls fresh) !! 0 = None ∧
    activeUsers (requestTracker method None now m) = activeUsers m ∧
    activeUsers (requestTracker method (Some 0) now m) = activeUsers m ∧
    activeUsers (recordAuthAttempt success None now m) = activeUsers m ∧
    activeUsers (recordAuthAttempt success (Some 0) now m) = activeUsers m ∧
    updateUserActivity None now m = m ∧
    updateUserActivity (Some 0) now m = m ∧
    removeActiveUser None m = m ∧
    removeActiveUser (Some 0) m = m.
Proof.
  intros calls method success now m.
  split; [| by destruct success].
  induction calls as [| c calls IH] using rev_ind; [done |].
  rewrite run_snoc.
  destruct c; simpl;
    unfold recordAuthAttempt, updateUserActivity, removeActiveUser;
    rewrite ?sendMetrics_resumed_state;
    try destruct success0;
    try (destruct (truthy user) as [id |] eqn:Hid);
    try (destruct (truthy userId) as [id |] eqn:Hid); simpl; try done;
    try (apply truthy_Some in Hid as [_ Hid]);
    rewrite ?lookup_insert_ne, ?lookup_delete_ne by done; try done.
  rewrite expire_inactive_lookup, IH. done.
Qed.

(** X7: the registry holds one entry per user, so the [active_users] gauge
    counts distinct users: activity of a user already registered leaves the
    size and overwrites the time (the last write wins, also when it is the
    earlier time), activity of a new user adds one, a logout of a registered
    user takes one away, and logging a user out right after their activity
    leaves the registry as a logout alone would. *)
Theorem registry_counts_distinct_users :
  ∀ (id t1 t2 : Z) (m : Metrics),
    id ≠ 0 →
    let users := activeUsers m in
    let known := bool_decide (is_Some (users !! id)) in
    activeUsers (updateUserActivity (Some id) t1 m) !! id = Some t1 ∧
    size (activeUsers (updateUserActivity (Some id) t1 m)) =
      (if known then size users else S (size users)) ∧
    size (activeUsers (removeActiveUser (Some id) m)) =
      (if known then pred (size users) else size users) ∧
    activeUsers
      (updateUserActivity (Some id) t2 (updateUserActivity (Some id) t1 m)) =
      activeUsers (updateUserActivity (Some id) t2 m) ∧
    activeUsers
      (removeActiveUser (Some id) (updateUserActivity (Some id) t1 m)) =
      activeUsers (removeActiveUser (Some id) m) ∧
    (∀ other : Z, other ≠ id →
       activeUsers (updateUserActivity (Some id) t1 m) !! other =
         users !! other ∧
       activeUsers (removeActiveUser (Some id) m) !! other = users !! other).
Proof.
  intros id t1 t2 m Hid users known. subst users known.
  unfold updateUserActivity, removeActiveUser.
  rewrite (truthy_nonzero id Hid). simpl.
  rewrite map_size_insert, map_size_delete.
  split; [apply lookup_insert_eq |].
  split; [by destruct (activeUsers m !! id); case_bool_decide as H;
             try done; exfalso; apply H || (by destruct H) |].
  split; [by destruct (activeUsers m !! id); case_bool_decide as H;
             try done; exfalso; apply H || (by destruct H) |].
  split; [apply insert_insert_eq |].
  split; [apply delete_insert_eq |].
  intros other Hother.
  by rewrite lookup_insert_ne, lookup_delete_ne.
Qed.

End Registry.

(** User 7 makes a request at time 1000; a cycle at 301000 finds the entry
    exactly five minutes old and keeps it. *)
Lemma activity_keeps_a_user_registered_for_five_minutes_witness :
  let config := mkConfig "jwt-pizza-service" "https://collector" "key" in
  let answer (_ : Request) := Resolved (mkResponse 200 "OK" (inl "")) in
  activeUsers
    (sendMetrics config (λ x, x) 301000 301000 (mkHost 1 4 16 8) answer
       (requestTracker "GET" (Some 7) 1000 fresh)).1 !! 7 = Some 1000.
Proof.
  intros config answer.
  assert (7 ≠ 0) as Hid by lia.
  exact (proj1 (activity_keeps_a_user_registered_for_five_minutes
                  config (λ x, x) 7 1000 301000 301000 (mkHost 1 4 16 8)
                  answer "GET" fresh Hid)).
Defined.

(** User 7 on a fresh aggregator: one entry after the first activity, still
    one after the second. *)
Lemma registry_counts_distinct_users_witness :
  size (activeUsers (updateUserActivity (Some 7) 1000 fresh)) = 1%nat ∧
  activeUsers
    (updateUserActivity (Some 7) 500 (updateUserActivity (Some 7) 1000 fresh))
  = activeUsers (updateUserActivity (Some 7) 500 fresh).
Proof.
  assert (7 ≠ 0) as Hid by lia.
  destruct (registry_counts_distinct_users 7 1000 500 fresh Hid)
    as (_ & Hsize & _ & Hlast & _).
  split; [exact Hsize | exact Hlast].
Defined.

(** ** The latency windows over a history *)

(** The invariant behind [recent_window]. *)
Lemma suffix_window_push (window recorded : list Z) (x : Z) :
  window `suffix_of` recorded →
  (Nat.min (length recorded) 50 <= length window)%nat →
  push_shift window x `suffix_of` recorded ++ [x] ∧
  (Nat.min (length (recorded ++ [x])) 50 <= length (push_shift window x))%nat.
Proof.
  intros Hsuffix Hlen.
  rewrite push_shift_length, push_shift_drops_oldest, length_app.
  simpl length.
  destruct (Nat.leb_spec 100 (length window)) as [Hfull | Hroom].
  - split; [| lia]. apply suffix_app.
    transitivity window; [| done].
    rewrite <- (drop_0 window) at 1. rewrite tail_drop. apply suffix_drop.
  - split; [by apply suffix_app | lia].
Qed.

Lemma suffix_window_trim (window recorded : list Z) :
  window `suffix_of` recorded →
  (Nat.min (length recorded) 50 <= length window)%nat →
  trim_latencies window `suffix_of` recorded ∧
  (Nat.min (length recorded) 50 <= length (trim_latencies window))%nat.
Proof.
  intros Hsuffix Hlen. rewrite trim_latencies_length.
  rewrite trim_latencies_spec. split; [| lia].
  transitivity window; [apply suffix_drop | done].
Qed.

Lemma suffix_is_drop (window recorded : list Z) :
  window `suffix_of` recorded →
  window = drop (length recorded - length window)%nat recorded.
Proof.
  intros [older ->]. rewrite length_app.
  replace (length older + length window - length window)%nat
    with (length older) by lia.
  by rewrite drop_app_length.
Qed.

Lemma finished_latencies_snoc (calls : list call) (c : call) :
  finished_latencies (calls ++ [c]) =
  finished_latencies calls ++
  match c with
  | CallRequestFinished startTime now => [now - startTime]
  | _ => []
  end.
Proof.
  unfold finished_latencies. rewrite omap_app. f_equal. by destruct c.
Qed.

Lemma purchase_latencies_snoc (calls : list call) (c : call) :
  purchase_latencies (calls ++ [c]) =
  purchase_latencies calls ++
  match c with
  | CallPizzaPurchase _ latency _ => [latency]
  | _ => []
  end.
Proof.
  unfold purchase_latencies. rewrite omap_app. f_equal. by destruct c.
Qed.

Section Windows.

Variable config : Config.
Variable toFixed2 : float → float.

Lemma run_windows_suffix (calls : list call) :
  let m := run config toFixed2 calls fresh in
  (serviceLatencies (latencyMetrics m) `suffix_of` finished_latencies calls ∧
   (Nat.min (length (finished_latencies calls)) 50
    <= length (serviceLatencies (latencyMetrics m)))%nat) ∧
  (pizzaLatencies (latencyMetrics m) `suffix_of` purchase_latencies calls ∧
   (Nat.min (length (purchase_latencies calls)) 50
    <= length (pizzaLatencies (latencyMetrics m)))%nat).
Proof.
  induction calls as [| c calls IH] using rev_ind.
  { simpl. repeat split; done || lia. }
  cbv zeta in *. destruct IH as [[Hs Hsl] [Hp Hpl]].
  rewrite run_snoc, finished_latencies_snoc, purchase_latencies_snoc.
  destruct c; simpl;
    unfold recordAuthAttempt, updateUserActivity, removeActiveUser;
    rewrite ?sendMetrics_resumed_state;
    try destruct success; try destruct (truthy userId); simpl;
    rewrite ?app_nil_r;
    try (split; [by split | by split]).
  - split; [by apply suffix_window_push | by split].
  - split; [by split | by apply suffix_window_push].
  - split; [by split | by apply suffix_window_push].
  - split; by apply suffix_window_trim.
  - split; by apply suffix_window_trim.
Qed.

(** X8: at any point of any history of calls from the fresh aggregator,
    the service window holds the most recent latencies of the requests that
    finished, in the order they finished, and the pizza window the most
    recent purchase latencies: nothing is reordered, nothing leaves but from
    the old end, and resets included the window keeps at least the last 50
    samples recorded (all of them when fewer were) and at most the last
    100. *)
Theorem windows_hold_the_most_recent_samples :
  ∀ calls : list call,
    let m := run config toFixed2 calls fresh in
    recent_window (serviceLatencies (latencyMetrics m))
                  (finished_latencies calls) ∧
    recent_window (pizzaLatencies (latencyMetrics m))
                  (purchase_latencies calls).
Proof.
  intros calls m.
  destruct (run_windows_suffix calls) as [[Hs Hsl] [Hp Hpl]].
  destruct (run_windows_bounded config toFixed2 calls fresh) as [Hs100 Hp100];
    [split; simpl; lia |].
  pose proof (suffix_length _ _ Hs). pose proof (suffix_length _ _ Hp).
  subst m. unfold recent_window.
  split; (split; [by apply suffix_is_drop | lia]).
Qed.

End Windows.

(** ** The CPU percentage below the cap and on a host without CPUs *)

Lemma ltb_asym (x y : float) :
  PrimFloat.ltb x y = true → PrimFloat.ltb y x = false.
Proof.
  rewrite !FloatAxioms.ltb_spec. unfold SFltb.
  rewrite (SFcompare_antisym (Prim2SF y) (Prim2SF x)).
  by destruct (SFcompare (Prim2SF x) (Prim2SF y)) as [[] |].
Qed.

Lemma SFcompare_refl (s : spec_float) :
  s ≠ S754_nan → SFcompare s s = Some Eq.
Proof.
  destruct s as [[] | [] | | [] m e]; simpl; try done; intros _;
    by rewrite Z.compare_refl, Pos.compare_cont_refl.
Qed.

Lemma ltb_not_nan (x y : float) :
  PrimFloat.ltb x y = true → PrimFloat.is_nan x = false.
Proof.
  unfold PrimFloat.is_nan.
  rewrite FloatAxioms.ltb_spec, FloatAxioms.eqb_spec. unfold SFltb, SFeqb.
  intros Hlt. rewrite SFcompare_refl; [done |].
  intros Hnan. by rewrite Hnan in Hlt.
Qed.

Lemma ltb_100_infinity (x : float) :
  PrimFloat.ltb x 100 = true → PrimFloat.ltb x PrimFloat.infinity = true.
Proof.
  rewrite !FloatAxioms.ltb_spec. unfold SFltb.
  remember (Prim2SF 100) as hundred eqn:Hh. vm_compute in Hh.
  remember (Prim2SF PrimFloat.infinity) as inf eqn:Hi. vm_compute in Hi.
  subst hundred inf.
  by destruct (Prim2SF x) as [[] | [] | | [] m e].
Qed.

(** X9: a load per CPU below the cap is reported as it is: when
    [loadavg / cpus * 100] compares below 100, [getCpuUsagePercentage]
    returns exactly that number, negative loads and negative zero
    included. *)
Theorem cpu_percent_below_the_cap_is_exact :
  ∀ h : Host,
    let raw :=
      PrimFloat.mul (PrimFloat.div (loadavg1 h) (Z2F (cpus_length h))) 100 in
    PrimFloat.ltb raw 100 = true →
    getCpuUsagePercentage h = raw.
Proof.
  intros h raw Hlt. unfold getCpuUsagePercentage. fold raw.
  unfold Math_min. rewrite (ltb_not_nan raw 100 Hlt).
  change (PrimFloat.is_nan 100) with false. simpl orb. cbv iota.
  unfold min_step.
  change (is_pos_zero PrimFloat.infinity) with false.
  rewrite andb_false_r, (ltb_100_infinity raw Hlt).
  change (is_neg_zero 100) with false. simpl andb. cbv iota.
  by rewrite (ltb_asym raw 100 Hlt).
Qed.

(** A load of 0.5 on 4 CPUs is reported as 12.5. *)
Lemma cpu_percent_below_the_cap_is_exact_witness :
  getCpuUsagePercentage (mkHost 0.5 4 16 8) = 12.5%float.
Proof.
  exact (cpu_percent_below_the_cap_is_exact (mkHost 0.5 4 16 8) eq_refl).
Defined.

Lemma positive_over_zero (x : float) :
  PrimFloat.ltb 0 x = true →
  PrimFloat.mul (PrimFloat.div x 0) 100 = PrimFloat.infinity.
Proof.
  rewrite FloatAxioms.ltb_spec. unfold SFltb. intros Hpos.
  apply Prim2SF_inj.
  rewrite FloatAxioms.mul_spec, FloatAxioms.div_spec.
  remember (Prim2SF 100) as hundred eqn:Hh. vm_compute in Hh.
  remember (Prim2SF 0) as zero eqn:Hz. vm_compute in Hz.
  subst hundred zero.
  by destruct (Prim2SF x) as [[] | [] | | [] m e].
Qed.

(** X10: on a host that reports no CPU ([os.cpus()] empty) the division by
    the CPU count does not fail: every positive load average, infinite
    included, is reported as exactly 100, and a load average of zero as
    [NaN]. *)
Theorem cpu_percent_without_cpus :
  ∀ (load total free : float),
    PrimFloat.ltb 0 load = true →
    getCpuUsagePercentage (mkHost load 0 total free) = 100%float ∧
    PrimFloat.is_nan (getCpuUsagePercentage (mkHost 0 0 total free)) = true.
Proof.
  intros load total free Hpos. unfold getCpuUsagePercentage. simpl.
  change (Z2F 0) with 0%float.
  rewrite (positive_over_zero load Hpos). done.
Qed.

(** A load average of 2.5 on a host without CPUs. *)
Lemma cpu_percent_without_cpus_witness :
  getCpuUsagePercentage (mkHost 2.5 0 16 8) = 100%float.
Proof.
  exact (proj1 (cpu_percent_without_cpus 2.5 16 8 eq_refl)).
Defined.

(** ** Cycles in a row *)

Lemma trim_latencies_idempotent (arr : list Z) :
  trim_latencies (trim_latencies arr) = trim_latencies arr.
Proof.
  rewrite (trim_latencies_spec (trim_latencies arr)), trim_latencies_length.
  replace (Nat.min (length arr) 50 - 50)%nat with 0%nat by lia.
  apply drop_0.
Qed.

Section Cycles.

Variable config : Config.
Variable toFixed2 : float → float.

(** X11: a reset of a state just reset changes nothing, and two reporting
    cycles in a row, with no call between them, leave the aggregator as the
    second cycle alone would if it ran at the later of the two clock
    readings: counters zero, windows trimmed once, the registry swept
    once. *)
Theorem cycles_in_a_row_are_one_cycle :
  ∀ (now1 now2 clock1 clock2 : Z) (h1 h2 : Host)
    (fetched1 fetched2 : Request → fetch_outcome) (m : Metrics),
    resetPeriodMetrics (resetPeriodMetrics m) = resetPeriodMetrics m ∧
    (sendMetrics config toFixed2 now2 clock2 h2 fetched2
       (sendMetrics config toFixed2 now1 clock1 h1 fetched1 m).1).1 =
    (sendMetrics config toFixed2 (Z.max now1 now2) clock2 h2 fetched2 m).1.
Proof.
  intros now1 now2 clock1 clock2 h1 h2 fetched1 fetched2 m.
  rewrite !sendMetrics_state. unfold resetPeriodMetrics, set_activeUsers.
  simpl. rewrite !trim_latencies_idempotent, expire_inactive_twice.
  split; [done |]. do 2 f_equal. lia.
Qed.

End Cycles.

(** ** Requests in the snapshot *)

Lemma requestTracker_other_count method user now m k :
  k ≠ "total" → k ≠ method →
  count_of k (httpRequestCounts (requestTracker method user now m)) =
  count_of k (httpRequestCounts m).
Proof.
  intros Hk Hm. rewrite requestTracker_method by done.
  destruct (decide (method = k)); [congruence | lia].
Qed.

Section SnapshotRequests.

Variable config : Config.
Variable toFixed2 : float → float.

(** X12: the snapshot reports per-method counts for GET, POST, PUT and
    DELETE only.  A request with any other method name (PATCH, HEAD,
    OPTIONS, ...) raises [http_requests_total] by one and, when it comes
    from a user, may change [active_users]; every other property of the next
    snapshot is what it would have been without the request, so the total
    can exceed the sum of the four per-method counts. *)
Theorem other_methods_show_in_the_total_only :
  ∀ (method : string) (user : option Z) (now now' : Z) (h : Host)
    (m : Metrics),
    method ∉ reported_methods → method ≠ "total" →
    let before := metrics_object config toFixed2 now' h m in
    let after :=
      metrics_object config toFixed2 now' h
                     (requestTracker method user now m) in
    get_property "http_requests_total" after =
      Some (VNumber (Z2F (count_of "total" (httpRequestCounts m) + 1))) ∧
    ∀ k : string,
      k ≠ "http_requests_total" → k ≠ "active_users" →
      get_property k after = get_property k before.
Proof.
  intros method user now now' h m Hother Htotal before after.
  subst before after. unfold reported_methods in Hother.
  rewrite !not_elem_of_cons in Hother.
  destruct Hother as (Hget & Hpost & Hput & Hdelete & _).
  pose proof (requestTracker_total method user now m Htotal) as Ht.
  assert (∀ k, k ≠ "total" → k ≠ method →
            count_of k (httpRequestCounts (requestTracker method user now m))
            = count_of k (httpRequestCounts m)) as Hsame
    by (intros; by apply requestTracker_other_count).
  unfold get_property, metrics_object.
  rewrite Ht, !Hsame by done.
  split; [done |].
  intros k Hk1 Hk2. simpl.
  repeat (case_bool_decide; [subst; done |]). done.
Qed.

End SnapshotRequests.

(** A PATCH request from no user on a fresh aggregator. *)
Lemma other_methods_show_in_the_total_only_witness :
  let config := mkConfig "jwt-pizza-service" "https://collector" "key" in
  let h := mkHost 1 4 16 8 in
  let after :=
    metrics_object config (λ x, x) 2000 h
                   (requestTracker "PATCH" None 1000 fresh) in
  get_property "http_requests_total" after = Some (VNumber 1) ∧
  get_property "http_requests_get" after = Some (VNumber 0) ∧
  get_property "http_requests_post" after = Some (VNumber 0) ∧
  get_property "http_requests_put" after = Some (VNumber 0) ∧
  get_property "http_requests_delete" after = Some (VNumber 0).
Proof.
  intros config h after.
  assert ("PATCH" ∉ reported_methods) as Hother
    by (apply (bool_decide_unpack _); vm_compute; reflexivity).
  assert ("PATCH" ≠ "total") as Htotal by discriminate.
  destruct (other_methods_show_in_the_total_only config (λ x, x)
              "PATCH" None 1000 2000 h fresh Hother Htotal) as [Ht Hk].
  split; [exact Ht |].
  repeat split;
    (etransitivity; [apply Hk; discriminate | reflexivity]).
Defined.

(** ** Bounds of the average latency *)

(** [Math.round] of a quotient of integers, by integer division. *)
Lemma Math_round_quotient (s : Z) (p : positive) :
  Math_round (inject_Z s / inject_Z (Z.pos p))%Q =
  (2 * s + Z.pos p) / (2 * Z.pos p).
Proof.
  unfold Math_round, Qdiv, Qinv, Qmult, Qplus, inject_Z, Qfloor. simpl.
  f_equal; lia.
Qed.

Lemma sum_latencies_bounds (lo hi : Z) (latencies : list Z) (acc : Z) :
  Forall (λ y, lo <= y <= hi) latencies →
  acc + Z.of_nat (length latencies) * lo <= fold_left Z.add latencies acc ∧
  fold_left Z.add latencies acc <= acc + Z.of_nat (length latencies) * hi.
Proof.
  intros Hall. revert acc.
  induction Hall as [| y latencies Hy _ IH]; intros acc; simpl; [lia |].
  specialize (IH (acc + y)). lia.
Qed.

(** X13: the average of a non-empty list of samples lies between the
    smallest and the largest of them: when every sample is between [lo] and
    [hi], so is the average; in particular the average of equal samples is
    that sample. *)
Theorem average_latency_within_sample_range :
  ∀ (x : Z) (latencies : list Z) (lo hi : Z),
    Forall (λ y, lo <= y <= hi) (x :: latencies) →
    lo <= getAverageLatency (x :: latencies) <= hi.
Proof.
  intros x latencies lo hi Hall.
  destruct (sum_latencies_bounds lo hi (x :: latencies) 0 Hall) as [Hlo Hhi].
  unfold getAverageLatency.
  destruct (decide (length (x :: latencies) = 0%nat)) as [Hz | _];
    [done |].
  cbv zeta. fold (sum_latencies (x :: latencies)) in Hlo, Hhi.
  set (s := sum_latencies (x :: latencies)) in *.
  destruct (Z.of_nat (length (x :: latencies))) as [| p | p] eqn:Hn;
    [simpl in Hn; lia | | lia].
  rewrite Math_round_quotient. split.
  - apply Z.div_le_lower_bound; lia.
  - apply Z.lt_succ_r, Z.div_lt_upper_bound; lia.
Qed.

(** Samples between 80 and 120. *)
Lemma average_latency_within_sample_range_witness :
  80 <= getAverageLatency [120; 80; 95] <= 120.
Proof.
  apply (average_latency_within_sample_range 120 [80; 95] 80 120).
  repeat constructor; lia.
Defined.

(** ** Units of the metrics *)

Lemma append_cons (a : Ascii.ascii) (s t : string) :
  String.append (String a s) t = String a (String.append s t).
Proof. reflexivity. Qed.

Lemma append_nil (t : string) : String.append EmptyString t = t.
Proof. reflexivity. Qed.

Lemma prefix_spec (needle s : string) :
  String.prefix needle s = true ↔ ∃ after, s = String.append needle after.
Proof.
  revert s. induction needle as [| a needle IH]; intros s.
  - split; [intros _; exists s; by rewrite append_nil |].
    intros _. by destruct s.
  - destruct s as [| b s]; simpl.
    { split; [done |]. intros [after H]. by rewrite append_cons in H. }
    destruct (Ascii.ascii_dec a b) as [-> | Hab].
    + rewrite IH. split; intros [after H]; exists after.
      * by rewrite append_cons, H.
      * rewrite append_cons in H. congruence.
    + split; [done |]. intros [after H]. rewrite append_cons in H.
      congruence.
Qed.

Lemma includes_spec (needle s : string) :
  includes needle s = true ↔ occurs_in needle s.
Proof.
  unfold occurs_in. induction s as [| b s IH]; cbn [includes].
  - rewrite orb_false_r, prefix_spec. split.
    + intros [after H]. exists EmptyString, after. by rewrite append_nil.
    + intros ([| c before] & after & H).
      * rewrite append_nil in H. by exists after.
      * by rewrite append_cons in H.
  - rewrite orb_true_iff, prefix_spec, IH. split.
    + intros [[after H] | (before & after & H)].
      * exists EmptyString, after. by rewrite append_nil.
      * exists (String b before), after. by rewrite append_cons, H.
    + intros ([| c before] & after & H).
      * left. rewrite append_nil in H. by exists after.
      * right. rewrite append_cons in H. injection H as -> H.
        by exists before, after.
Qed.

(** X14: the unit of a metric is decided by the first of the words
    [percent], [latency], [revenue] that occurs in its name, in this order
    of precedence: [%] exactly when [percent] occurs, [ms] exactly when
    [latency] occurs and [percent] does not, [USD] exactly when [revenue]
    occurs and neither of the others, and [1] exactly when none occurs.  The
    words [requests], [attempts], [users] and [pizzas] that the source also
    tests have no influence on the result. *)
Theorem metric_unit_follows_the_first_word :
  ∀ metricName : string,
    let percent := occurs_in "percent" metricName in
    let latency := occurs_in "latency" metricName in
    let revenue := occurs_in "revenue" metricName in
    (getMetricUnit metricName = "%" ↔ percent) ∧
    (getMetricUnit metricName = "ms" ↔ ¬ percent ∧ latency) ∧
    (getMetricUnit metricName = "USD" ↔ ¬ percent ∧ ¬ latency ∧ revenue) ∧
    (getMetricUnit metricName = "1" ↔ ¬ percent ∧ ¬ latency ∧ ¬ revenue).
Proof.
  intros metricName percent latency revenue. subst percent latency revenue.
  rewrite getMetricUnit_by_convention. unfold unit_by_convention.
  rewrite <- !includes_spec.
  destruct (includes "percent" metricName),
    (includes "latency" metricName), (includes "revenue" metricName);
    repeat split; try done; intros; try discriminate;
    repeat match goal with H : _ ∧ _ |- _ => destruct H end;
    done || congruence.
Qed.

(** ** Reading a snapshot back from its payload *)

Lemma get_property_In (k : string) (v : value) (o : snapshot) :
  get_property k o = Some v → In (k, v) o.
Proof.
  unfold get_property. intros Hget.
  destruct (List.find _ o) as [[k' v'] |] eqn:Hfind; [| done].
  injection Hget as ->. apply List.find_some in Hfind as [Hin Hk].
  apply bool_decide_eq_true in Hk. simpl in Hk. by subst.
Qed.

Lemma In_get_property (k : string) (v : value) (o : snapshot) :
  NoDup (List.map fst o) → In (k, v) o → get_property k o = Some v.
Proof.
  unfold get_property. induction o as [| [k' v'] o IH]; [done |].
  intros Hnodup Hin. apply NoDup_cons in Hnodup as [Hfresh Hnodup].
  simpl. case_bool_decide as Hk; simpl in Hk.
  - subst k'. destruct Hin as [[= ->] | Hin]; [done |].
    exfalso. apply Hfresh, list_elem_of_In.
    apply (List.in_map fst) in Hin. exact Hin.
  - destruct Hin as [[= ? ?] | Hin]; [done |]. by apply IH.
Qed.

(** X15: for a snapshot whose property names are distinct, as those of a
    JavaScript object are, the payload can be read back: a name [k] other
    than [source] and [timestamp] holds the number [x] in the snapshot
    exactly when the payload has a metric named [k] whose data points carry
    the single value [x].  Nothing numeric is lost, nothing is added, and
    the string properties and the two excluded ones give no metric. *)
Theorem payload_reads_back_as_the_snapshot :
  ∀ (clock : Z) (snap : snapshot),
    NoDup (List.map fst snap) →
    ∀ (k : string) (x : float),
      (get_property k snap = Some (VNumber x) ∧
       k ≠ "source" ∧ k ≠ "timestamp") ↔
      (∃ mt : Metric,
         In mt (payload_metrics (buildOtelMetrics clock snap)) ∧
         name mt = k ∧
         List.map asDouble (gauge_dataPoints mt) = [x]).
Proof.
  intros clock snap Hnodup k x. rewrite payload_metrics_build. split.
  - intros (Hget & Hsource & Htime).
    eexists. split.
    + apply List.in_map, filter_In. split.
      * apply get_property_In, Hget.
      * apply is_metric_entry_spec. eauto.
    + done.
  - intros (mt & Hin & Hname & Hvalue).
    apply List.in_map_iff in Hin as ([k' v] & <- & Hin).
    apply filter_In in Hin as [Hin Hentry].
    apply is_metric_entry_spec in Hentry as (Hsource & Htime & x' & ->).
    simpl in Hname, Hvalue. subst k'. injection Hvalue as <-.
    split; [by apply In_get_property | done].
Qed.

(** The revenue and the CPU percentage of a snapshot, read back. *)
Lemma payload_reads_back_as_the_snapshot_witness :
  let config := mkConfig "jwt-pizza-service" "https://collector" "key" in
  let snap :=
    metrics_object config (λ x, x) 1000 (mkHost 0.5 4 16 8)
                   (pizzaPurchase true 120 9.99 fresh) in
  ∃ mt : Metric,
    In mt (payload_metrics (buildOtelMetrics 1001 snap)) ∧
    name mt = "pizza_revenue" ∧
    List.map asDouble (gauge_dataPoints mt) = [9.99%float].
Proof.
  intros config snap.
  assert (NoDup (List.map fst snap)) as Hnodup
    by (apply (bool_decide_unpack _); vm_compute; reflexivity).
  apply (payload_reads_back_as_the_snapshot 1001 snap Hnodup
           "pizza_revenue" 9.99%float).
  repeat split; discriminate.
Defined.

(** * The token check of the route tests *)

Lemma nullable_spec (r : regex) : nullable r = true ↔ matches r [].
Proof.
  split.
  - induction r as [| | c | p | r1 IH1 r2 IH2 | r1 IH1 r2 IH2 | r IH];
      simpl; intros Hn; try discriminate.
    + constructor.
    + apply orb_true_iff in Hn as [Hn | Hn];
        [apply matches_alt_l | apply matches_alt_r]; auto.
    + apply andb_true_iff in Hn as [Hn1 Hn2].
      apply (matches_seq r1 r2 [] []); auto.
    + constructor.
  - intros Hm. remember [] as s eqn:Hs.
    induction Hm as [| c | p c Hp | r1 r2 s Hm IH | r1 r2 s Hm IH
                    | r1 r2 s1 s2 Hm1 IH1 Hm2 IH2 | r
                    | r s1 s2 Hm1 IH1 Hm2 IH2]; simpl; try done.
    + by rewrite IH.
    + rewrite IH by done. apply orb_true_r.
    + apply app_eq_nil in Hs as [-> ->]. by rewrite IH1, IH2.
Qed.

Lemma deriv_sound (a : Ascii.ascii) (r : regex) (s : list Ascii.ascii) :
  matches (deriv a r) s → matches r (a :: s).
Proof.
  revert s.
  induction r as [| | c | p | r1 IH1 r2 IH2 | r1 IH1 r2 IH2 | r IH];
    simpl; intros s Hm.
  - inversion Hm.
  - inversion Hm.
  - destruct (Ascii.eqb_spec a c) as [-> | Hac]; inversion Hm. constructor.
  - destruct (p a) eqn:Hp; inversion Hm. by constructor.
  - inversion Hm; subst; [apply matches_alt_l | apply matches_alt_r]; auto.
  - destruct (nullable r1) eqn:Hn.
    + inversion Hm as [| | | ? ? ? Hl | ? ? ? Hr | | |]; subst.
      * inversion Hl; subst.
        apply (matches_seq r1 r2 (a :: _)); auto.
      * apply (matches_seq r1 r2 [] (a :: s)); [| auto].
        by apply nullable_spec.
    + inversion Hm; subst. apply (matches_seq r1 r2 (a :: _)); auto.
  - inversion Hm; subst. apply (matches_star_app r (a :: _)); auto.
Qed.

Lemma deriv_complete (a : Ascii.ascii) (r : regex) (s : list Ascii.ascii) :
  matches r (a :: s) → matches (deriv a r) s.
Proof.
  intros Hm. remember (a :: s) as t eqn:Ht. revert s Ht.
  induction Hm as [| c | p c Hp | r1 r2 t Hm IH | r1 r2 t Hm IH
                  | r1 r2 s1 s2 Hm1 IH1 Hm2 IH2 | r
                  | r s1 s2 Hm1 IH1 Hm2 IH2]; intros s Ht; simpl;
    try discriminate.
  - injection Ht as -> <-. rewrite Ascii.eqb_refl. constructor.
  - injection Ht as -> <-. rewrite Hp. constructor.
  - apply matches_alt_l. auto.
  - apply matches_alt_r. auto.
  - destruct s1 as [| b s1]; simpl in Ht.
    + subst s2. apply nullable_spec in Hm1. rewrite Hm1.
      apply matches_alt_r. auto.
    + injection Ht as -> <-.
      destruct (nullable r1); [apply matches_alt_l |];
        apply matches_seq; auto.
  - destruct s1 as [| b s1]; simpl in Ht.
    + auto.
    + injection Ht as -> <-. apply matches_seq; auto.
Qed.

Lemma regex_test_spec (r : regex) (s : list Ascii.ascii) :
  regex_test r s = true ↔ matches r s.
Proof.
  revert r. induction s as [| a s IH]; intros r; simpl.
  - apply nullable_spec.
  - rewrite IH. split; [apply deriv_sound | apply deriv_complete].
Qed.

Lemma matches_star_class (p : Ascii.ascii → bool) (s : list Ascii.ascii) :
  matches (Star (Class p)) s ↔ forallb p s = true.
Proof.
  split.
  - intros Hm. remember (Star (Class p)) as r eqn:Hr.
    induction Hm as [| | | | | | r' | r' s1 s2 Hm1 _ Hm2 IH2];
      try discriminate; [done |].
    injection Hr as ->. inversion Hm1; subst. simpl.
    rewrite IH2 by done. by rewrite andb_true_r.
  - induction s as [| a s IH]; simpl; intros Hall; [constructor |].
    apply andb_true_iff in Hall as [Ha Hall].
    apply (matches_star_app (Class p) [a] s); [by constructor | auto].
Qed.

Lemma matches_jwt_regex (s : list Ascii.ascii) :
  matches jwt_regex s ↔
  ∃ header payload signature : list Ascii.ascii,
    s = header ++ dot :: payload ++ dot :: signature ∧
    forallb jwt_char header = true ∧
    forallb jwt_char payload = true ∧
    forallb jwt_char signature = true.
Proof.
  unfold jwt_regex, jwt_segment. split.
  - intros Hm.
    inversion Hm as [| | | | | ? ? s1 t1 H1 Hrest1 | |]; subst.
    inversion Hrest1 as [| | | | | ? ? d1 t2 Hd1 Hrest2 | |]; subst.
    inversion Hd1; subst.
    inversion Hrest2 as [| | | | | ? ? s2 t3 H2 Hrest3 | |]; subst.
    inversion Hrest3 as [| | | | | ? ? d2 s3 Hd2 H3 | |]; subst.
    inversion Hd2; subst.
    apply matches_star_class in H1, H2, H3.
    by exists s1, s2, s3.
  - intros (header & payload & signature & -> & Hh & Hp & Hs).
    apply matches_star_class in Hh, Hp, Hs.
    apply matches_seq; [done |].
    apply (matches_seq (Lit dot) _ [dot]); [constructor |].
    apply matches_seq; [done |].
    apply (matches_seq (Lit dot) _ [dot]); [constructor | done].
Qed.

(** X16: [expectValidJwt] passes exactly for a string made of three
    segments separated by two dots, each segment a possibly empty run of
    letters, digits, [-] and [_]; the dot is not one of these characters, so
    the string has exactly two dots.  The check is one of shape only: empty
    segments pass, a missing token does not. *)
Theorem expectValidJwt_accepts_three_dotted_segments :
  ∀ token : string,
    (expectValidJwt (Some token) = true ↔
     ∃ header payload signature : list Ascii.ascii,
       String.list_ascii_of_string token =
         header ++ dot :: payload ++ dot :: signature ∧
       forallb jwt_char header = true ∧
       forallb jwt_char payload = true ∧
       forallb jwt_char signature = true) ∧
    jwt_char dot = false ∧
    expectValidJwt None = false ∧
    expectValidJwt (Some "..") = true ∧
    expectValidJwt (Some "invalidToken") = false.
Proof.
  intros token. split; [| by vm_compute].
  unfold expectValidJwt. rewrite regex_test_spec. apply matches_jwt_regex.
Qed.
